(** * A shallow embedding of [bookstore.py]

    The program is an interactive inventory manager: a menu loop reads lines
    from the terminal and runs one of four workflows against a single SQLite
    table [books].  The embedding follows the source function by function.

    - Python [str] values are Rocq strings, one [ascii] per character, the
      character codes read as code points below 256.
    - Python [int] values are [Z]; the INTEGER columns of the table hold
      64-bit signed values, and binding a Python [int] outside that range
      raises [OverflowError].
    - The terminal is a finite list of pending input lines and a log of what
      was written; [input] on an exhausted terminal raises [EOFError].
    - Every statement of the source is followed at once by [db.commit()], so
      a statement acts directly on the stored table.
    - Every [while True] loop is run by [while_true] under an iteration
      budget; a budget above the number of pending lines is never used up
      (see [main_menu_total]). *)

From Stdlib Require Import ZArith List String Ascii Bool Lia DecimalString Relations Sorted.
Import ListNotations.

Local Open Scope string_scope.
Local Open Scope Z_scope.

(** ** Python text primitives *)

Module Py.

(** [str.lower] on one character: A-Z and the accented capitals of the
    Latin-1 block move up by 32, everything else stays. *)
Definition lower_char (c : ascii) : ascii :=
  let n := nat_of_ascii c in
  if ((65 <=? n) && (n <=? 90))%nat
     || ((192 <=? n) && (n <=? 222) && negb (n =? 215))%nat
  then ascii_of_nat (n + 32) else c.

Fixpoint lower (s : string) : string :=
  match s with
  | EmptyString => EmptyString
  | String c s' => String (lower_char c) (lower s')
  end.

(** Characters that [int] skips at both ends of its argument. *)
Definition is_space (c : ascii) : bool :=
  let n := nat_of_ascii c in
  (((9 <=? n) && (n <=? 13)) || (n =? 32) || (n =? 133) || (n =? 160))%nat.

Fixpoint lstrip (l : list ascii) : list ascii :=
  match l with
  | c :: l' => if is_space c then lstrip l' else l
  | [] => []
  end.

Definition strip (l : list ascii) : list ascii :=
  rev (lstrip (rev (lstrip l))).

Definition digit_of (c : ascii) : option Z :=
  let n := nat_of_ascii c in
  if ((48 <=? n) && (n <=? 57))%nat then Some (Z.of_nat (n - 48)) else None.

(** Decimal digits, a single underscore allowed between two digits. *)
Fixpoint digits (acc : Z) (after_digit : bool) (l : list ascii) : option Z :=
  match l with
  | [] => if after_digit then Some acc else None
  | c :: l' =>
      if Ascii.eqb c "_"
      then if after_digit then digits acc false l' else None
      else match digit_of c with
           | Some d => digits (10 * acc + d) true l'
           | None => None
           end
  end.

(** The interpreter refuses to convert a literal of more than 4300 digits
    (its default limit); underscores, sign and surrounding space do not
    count, leading zeros do. *)
Definition max_str_digits : nat := 4300.

Definition digit_count (l : list ascii) : nat :=
  List.length (filter (fun c => match digit_of c with Some _ => true | None => false end) l).

Definition number (l : list ascii) : option Z :=
  if (max_str_digits <? digit_count l)%nat then None else digits 0 false l.

(** [int(s)]: [Some v] when the text is an integer literal, [None] where
    Python raises [ValueError]. *)
Definition int (s : string) : option Z :=
  match strip (list_ascii_of_string s) with
  | "+"%char :: l => number l
  | "-"%char :: l => option_map Z.opp (number l)
  | l => number l
  end.

(** [str(v)] for an integer, as an f-string formats it. *)
Definition str (v : Z) : string := NilZero.string_of_int (Z.to_int v).

(** [len(s) > 0] *)
Definition non_empty (s : string) : bool := (0 <? String.length s)%nat.

End Py.

(** ** The SQLite engine, as far as the program uses it *)

Module Sqlite.

(** The built-in LIKE folds the case of ASCII letters only. *)
Definition fold_char (c : ascii) : ascii :=
  let n := nat_of_ascii c in
  if ((65 <=? n) && (n <=? 90))%nat then ascii_of_nat (n + 32) else c.

(** [like p s]: the text [s] matches the pattern [p]; [%] stands for any
    run of characters, [_] for any one character, no escape character.
    This is the engine's LIKE on texts free of NUL characters and patterns
    of at most 50000 bytes; beyond that the engine stops a text at its first
    NUL and refuses the pattern. *)
Fixpoint like (p s : string) : bool :=
  match p with
  | EmptyString => match s with EmptyString => true | _ => false end
  | String c p' =>
      if Ascii.eqb c "%" then
        (fix star (t : string) : bool :=
           like p' t
           || match t with
              | EmptyString => false
              | String _ t' => star t'
              end) s
      else
        match s with
        | EmptyString => false
        | String d s' =>
            (Ascii.eqb c "_" || Ascii.eqb (fold_char c) (fold_char d))
            && like p' s'
        end
  end.

(** A row of [books]: id, Title, Author, Qty. *)
Definition row : Type := Z * string * string * Z.

Definition row_id (r : row) : Z := let '(i, _, _, _) := r in i.
Definition row_title (r : row) : string := let '(_, t, _, _) := r in t.
Definition row_author (r : row) : string := let '(_, _, a, _) := r in a.
Definition row_qty (r : row) : Z := let '(_, _, _, q) := r in q.

(** The table with its AUTOINCREMENT counter (the largest id handed out
    so far).  Rows are kept in ascending id order, the order of a scan. *)
Record database : Type := mkDb { rows : list row; sequence : Z }.

Definition min_int64 : Z := - 2 ^ 63.
Definition max_int64 : Z := 2 ^ 63 - 1.

Definition fits_int64 (v : Z) : bool := (min_int64 <=? v) && (v <=? max_int64).

(** CREATE TABLE books (...) *)
Definition create_table : database := mkDb [] 0.

Definition has_id (i : Z) (rs : list row) : bool :=
  existsb (fun r => row_id r =? i) rs.

Fixpoint insert_ordered (r : row) (rs : list row) : list row :=
  match rs with
  | [] => [r]
  | r' :: rs' =>
      if row_id r <? row_id r' then r :: rs else r' :: insert_ordered r rs'
  end.

(** INSERT INTO books VALUES (?, ?, ?, ?): [None] on a duplicate id. *)
Definition insert_values (r : row) (d : database) : option database :=
  if has_id (row_id r) (rows d) then None
  else Some (mkDb (insert_ordered r (rows d)) (Z.max (sequence d) (row_id r))).

Definition largest_id (rs : list row) : Z :=
  fold_right (fun r m => Z.max (row_id r) m) 0 rs.

(** The id AUTOINCREMENT gives to the next row: one more than every id that
    is or ever was in the table; [None] once the largest 64-bit value has
    been used. *)
Definition next_id (d : database) : option Z :=
  let m := Z.max (sequence d) (largest_id (rows d)) in
  if m <? max_int64 then Some (m + 1) else None.

(** INSERT INTO books (Title, Author, Qty) VALUES (?, ?, ?) *)
Definition insert_auto (t a : string) (q : Z) (d : database) : option database :=
  match next_id d with
  | Some i => Some (mkDb (rows d ++ [(i, t, a, q)]) i)
  | None => None
  end.

(** UPDATE books SET Title = ?, Author = ?, Qty = ? WHERE id = ? *)
Definition update_where_id (t a : string) (q i : Z) (d : database) : database :=
  mkDb (map (fun r => if row_id r =? i then (row_id r, t, a, q) else r) (rows d))
       (sequence d).

(** DELETE FROM books WHERE id = ? *)
Definition delete_where_id (i : Z) (d : database) : database :=
  mkDb (filter (fun r => negb (row_id r =? i)) (rows d)) (sequence d).

(** SELECT * FROM books WHERE Title LIKE ? OR Author LIKE ? *)
Definition select_like (p1 p2 : string) (d : database) : list row :=
  filter (fun r => like p1 (row_title r) || like p2 (row_author r)) (rows d).

(** SELECT * FROM books WHERE id = ?  (used to state what a later read of
    one id sees; the program itself never issues it). *)
Definition select_id (i : Z) (d : database) : option row :=
  find (fun r => row_id r =? i) (rows d).

End Sqlite.

(** ** The terminal, the store and the effects of the program *)

(** A cell of a table handed to [tabulate]. *)
Inductive cell : Type :=
| Num (v : Z)
| Txt (s : string).

(** What the program writes: a printed line, the prompt of an [input], or a
    table given to [tabulate.tabulate(..., headers="firstrow")]. *)
Inductive output : Type :=
| Line (s : string)
| Prompt (s : string)
| Table (table_rows : list (list cell)).

Record world : Type := mkWorld {
  stdin : list string;          (* lines still to be read *)
  stdout : list output;         (* everything written so far *)
  db : Sqlite.database          (* the table behind the global connection *)
}.

Inductive exn : Type :=
| EOFError
| OverflowError
| IntegrityError
| OperationalError
| IndexError.

Inductive outcome (A : Type) : Type :=
| Ret (a : A) (w : world)
| Raise (e : exn) (w : world)
| OutOfFuel (w : world).

Arguments Ret {A} a w.
Arguments Raise {A} e w.
Arguments OutOfFuel {A} w.

Definition world_of {A : Type} (o : outcome A) : world :=
  match o with
  | Ret _ w => w
  | Raise _ w => w
  | OutOfFuel w => w
  end.

Definition M (A : Type) : Type := world -> outcome A.

Definition ret {A : Type} (a : A) : M A := fun w => Ret a w.

Definition raise {A : Type} (e : exn) : M A := fun w => Raise e w.

Definition bind {A B : Type} (m : M A) (k : A -> M B) : M B :=
  fun w =>
    match m w with
    | Ret a w' => k a w'
    | Raise e w' => Raise e w'
    | OutOfFuel w' => OutOfFuel w'
    end.

Declare Scope prog_scope.
Delimit Scope prog_scope with prog.
Notation "x <- m ;; k" := (bind m (fun x => k))
  (at level 61, m at next level, right associativity) : prog_scope.
Notation "m ;; k" := (bind m (fun _ => k))
  (at level 61, right associativity) : prog_scope.
Local Open Scope prog_scope.

(** [while True: body]: the body answers [Some a] for [return a] and [None]
    for falling through to the next iteration. *)
Fixpoint while_true {A : Type} (fuel : nat) (body : M (option A)) : M A :=
  fun w =>
    match fuel with
    | O => OutOfFuel w
    | S fuel' =>
        match body w with
        | Ret (Some a) w' => Ret a w'
        | Ret None w' => while_true fuel' body w'
        | Raise e w' => Raise e w'
        | OutOfFuel w' => OutOfFuel w'
        end
    end.

Definition write (o : output) : M unit :=
  fun w => Ret tt (mkWorld (stdin w) (stdout w ++ [o]) (db w)).

Definition print (s : string) : M unit := write (Line s).

Definition print_table (table_rows : list (list cell)) : M unit :=
  write (Table table_rows).

(** [input(prompt)] on a terminal that delivers the typed lines and then
    ends: the prompt is written, the next line is returned, and [EOFError] is
    raised when no line is left.  Interrupts and undecodable bytes are
    outside this terminal. *)
Definition input (prompt : string) : M string :=
  fun w =>
    let out := (stdout w ++ [Prompt prompt])%list in
    match stdin w with
    | [] => Raise EOFError (mkWorld [] out (db w))
    | line :: rest => Ret line (mkWorld rest out (db w))
    end.

(** A Python [int] passed as a statement parameter. *)
Definition bind_int (v : Z) : M Z :=
  if Sqlite.fits_int64 v then ret v else raise OverflowError.

(** A statement that rewrites the table; [None] is a refusal by the engine,
    reported as the exception [e]. *)
Definition execute (e : exn) (stmt : Sqlite.database -> option Sqlite.database) : M unit :=
  fun w =>
    match stmt (db w) with
    | Some d => Ret tt (mkWorld (stdin w) (stdout w) d)
    | None => Raise e w
    end.

Definition fetchall (query : Sqlite.database -> list Sqlite.row) : M (list Sqlite.row) :=
  fun w => Ret (query (db w)) w.

(** [l[index]] for a Python list. *)
Definition list_get {A : Type} (l : list A) (index : Z) : M A :=
  let i := if index <? 0 then Z.of_nat (List.length l) + index else index in
  if i <? 0 then raise IndexError
  else match nth_error l (Z.to_nat i) with
       | Some a => ret a
       | None => raise IndexError
       end.

(** ** The program *)

Definition input_non_empty_string (fuel : nat) (prompt : string) : M string :=
  while_true fuel
    (s <- input prompt ;;
     if Py.non_empty s then ret (Some s)
     else print "Expected a value, please try again." ;; ret None).

Definition input_integer (fuel : nat) (prompt : string) : M Z :=
  while_true fuel
    (line <- input prompt ;;
     match Py.int line with
     | Some value => ret (Some value)
     | None => print "Expected an integer as input, please try again." ;; ret None
     end).

Definition input_integer_or_none (fuel : nat) (prompt : string) : M (option Z) :=
  while_true fuel
    (value <- input prompt ;;
     if (String.length value =? 0)%nat then ret (Some None)
     else match Py.int value with
          | Some v => ret (Some (Some v))
          | None => print "Expected an integer as input, please try again." ;; ret None
          end).

Record Book : Type := mkBook {
  id : Z;
  title : string;
  author : string;
  quantity : Z
}.

Definition initial_data : list Sqlite.row :=
  [ (3001, "A Tale of Two Cities", "Charles Dickens", 30);
    (3002, "Harry Potter and the Philosopher's Stone", "J. K. Rowling", 40);
    (3003, "The Lion, the Witch, and the Warderobe", "C. S. Lewis", 25);
    (3004, "The Lord of the Rings", "J. R. R. Tolkien", 37);
    (3005, "Alice in Wonderland", "Lewis Carroll", 12) ].

(** [cursor.executemany("INSERT INTO books VALUES (?, ?, ?, ?)", data)] *)
Fixpoint executemany_insert (data : list Sqlite.row) (d : Sqlite.database)
  : option Sqlite.database :=
  match data with
  | [] => Some d
  | r :: data' =>
      match Sqlite.insert_values r d with
      | Some d' => executemany_insert data' d'
      | None => None
      end
  end.

(** [initialise_database()]: the argument is the content of the file
    ebookstore.db, [None] when [os.path.exists] finds no such file.  The
    result is [None] if the engine refuses a seed row ([IntegrityError]). *)
Definition initialise_database (file : option Sqlite.database)
  : option Sqlite.database :=
  match file with
  | Some d => Some d
  | None => executemany_insert initial_data Sqlite.create_table
  end.

Definition book_of_row (r : Sqlite.row) : Book :=
  mkBook (Sqlite.row_id r) (Sqlite.row_title r) (Sqlite.row_author r) (Sqlite.row_qty r).

(** [find_matching_books(query)], for a pattern the engine takes (at most
    50000 bytes); a longer one makes the engine refuse the statement. *)
Definition find_matching_books (query : string) : M (list Book) :=
  rows <- fetchall (Sqlite.select_like query query) ;;
  ret (map book_of_row rows).

(** The three statements that change the table, each with the binding of
    its parameters and the commit that follows it in the source. *)

(** [add_books]: INSERT INTO books (Title, Author, Qty) VALUES (?, ?, ?) *)
Definition execute_insert (title author : string) (quantity : Z) : M unit :=
  qty <- bind_int quantity ;;
  execute OperationalError (Sqlite.insert_auto title author qty).

(** [update_book]: UPDATE books SET Title = ?, Author = ?, Qty = ? WHERE id = ? *)
Definition execute_update (new_book : Book) : M unit :=
  qty <- bind_int (quantity new_book) ;;
  key <- bind_int (id new_book) ;;
  execute OperationalError
    (fun d => Some (Sqlite.update_where_id (title new_book) (author new_book) qty key d)).

(** [delete_book]: DELETE FROM books WHERE id = ? *)
Definition execute_delete (key : Z) : M unit :=
  key <- bind_int key ;;
  execute OperationalError (fun d => Some (Sqlite.delete_where_id key d)).

Definition add_books_body (fuel : nat) : M (option unit) :=
  print "Please enter the book details:" ;;
  title <- input_non_empty_string fuel "Title: " ;;
  author <- input_non_empty_string fuel "Author: " ;;
  quantity <- input_integer fuel "Number in stock: " ;;
  execute_insert title author quantity ;;
  print "Saved." ;;
  print "" ;;
  choice <- input "Add another? Y/N " ;;
  if negb (String.eqb (Py.lower choice) "y") then ret (Some tt) else ret None.

Definition add_books (fuel : nat) : M unit :=
  print "-- Add new books --" ;;
  print "" ;;
  while_true fuel (add_books_body fuel).

(** f"%{query}%" *)
Definition wrap (query : string) : string := "%" ++ query ++ "%".

Definition query_for_books (fuel : nat) : M (list Book) :=
  while_true fuel
    (query <- input "Query (title or author): " ;;
     matches <- find_matching_books (wrap query) ;;
     if (0 <? List.length matches)%nat then ret (Some matches)
     else
       choice <- input "No matches, try again? Y/N " ;;
       if negb (String.eqb (Py.lower choice) "y") then ret (Some []) else ret None).

Definition enumerate_rows (books : list Book) : list (list cell) :=
  map (fun ib : nat * Book =>
         let (index, book) := ib in
         [Num (Z.of_nat index + 1); Txt (title book); Txt (author book); Num (quantity book)])
      (combine (seq 0 (List.length books)) books).

Definition out_of_range_message (index : Z) : string :=
  "'" ++ Py.str (index + 1) ++ "' is not a valid choice, out of range.".

Definition select_book_body (fuel : nat) (books : list Book) : M (option Book) :=
  index <- input_integer fuel "Enter the number of the book to update: " ;;
  let index := index - 1 in
  if (index <? 0) || (index >=? Z.of_nat (List.length books)) then
    print (out_of_range_message index) ;; ret None
  else
    book <- list_get books index ;; ret (Some book).

Definition select_book_from_list (fuel : nat) (books : list Book) : M Book :=
  print_table ([Txt "#"; Txt "Title"; Txt "Author"; Txt "Stock Level"] :: enumerate_rows books) ;;
  print "" ;;
  while_true fuel (select_book_body fuel books).

(** The record built by [update_book] from what was entered. *)
Definition merged_book (book : Book) (new_title new_author : string)
  (new_quantity : option Z) : Book :=
  mkBook (id book)
         (if Py.non_empty new_title then new_title else title book)
         (if Py.non_empty new_author then new_author else author book)
         (match new_quantity with Some q => q | None => quantity book end).

Definition update_book (fuel : nat) : M unit :=
  print "-- Update --" ;;
  print "Search for the book to be updated" ;;
  matches <- query_for_books fuel ;;
  book <- select_book_from_list fuel matches ;;
  new_title <- input "Enter the new title, or blank to skip: " ;;
  new_author <- input "Enter the new author, or blank to skip: " ;;
  new_quantity <- input_integer_or_none fuel "Enter the new stock level, or blank to skip: " ;;
  let new_book := merged_book book new_title new_author new_quantity in
  execute_update new_book ;;
  print "Updated." ;;
  print "".

Definition delete_book (fuel : nat) : M unit :=
  print "-- Delete --" ;;
  print "Search for the book to be deleted" ;;
  matches <- query_for_books fuel ;;
  book <- select_book_from_list fuel matches ;;
  execute_delete (id book) ;;
  print "Deleted." ;;
  print "".

Definition search_books : M unit :=
  print "-- Search --" ;;
  query <- input "Query (title or author): " ;;
  print "" ;;
  matches <- find_matching_books (wrap query) ;;
  print (Py.str (Z.of_nat (List.length matches)) ++ " result(s)") ;;
  print "" ;;
  if (0 <? List.length matches)%nat then
    print_table ([Txt "Title"; Txt "Author"; Txt "Stock Level"]
                 :: map (fun book => [Txt (title book); Txt (author book); Num (quantity book)])
                        matches) ;;
    print ""
  else ret tt.

Definition print_menu : M unit :=
  print "Please choose an option:" ;;
  print "1. Enter book" ;;
  print "2. Update book" ;;
  print "3. Delete book" ;;
  print "4. Search books" ;;
  print "0. Exit".

Definition main_menu_body (fuel : nat) : M (option unit) :=
  print_menu ;;
  choice <- input "> " ;;
  let choice := Py.lower choice in
  if String.eqb choice "1" then add_books fuel ;; ret None
  else if String.eqb choice "2" then update_book fuel ;; ret None
  else if String.eqb choice "3" then delete_book fuel ;; ret None
  else if String.eqb choice "4" then search_books ;; ret None
  else if String.eqb choice "0" then ret (Some tt)
  else print "Invalid choice, please try again." ;; ret None.

Definition main_menu (fuel : nat) : M unit :=
  while_true fuel (main_menu_body fuel).

(** The whole script: [db = initialise_database()] then [main_menu()], on the
    file content [file] and the typed lines [lines].  The loops get a budget
    just above the number of lines. *)
Definition run (file : option Sqlite.database) (lines : list string) : option (outcome unit) :=
  match initialise_database file with
  | Some d => Some (main_menu (S (List.length lines)) (mkWorld lines [] d))
  | None => None
  end.

(** ** Vocabulary of the properties *)

Definition fold_case (s : string) : string :=
  string_of_list_ascii (map Sqlite.fold_char (list_ascii_of_string s)).

(** [q] occurs in [s], character for character. *)
Definition occurs_in (q s : string) : Prop :=
  exists pre post, s = pre ++ q ++ post.

Fixpoint starts_with_nocase (q s : string) : bool :=
  match q, s with
  | EmptyString, _ => true
  | String _ _, EmptyString => false
  | String c q', String d s' =>
      Ascii.eqb (Sqlite.fold_char c) (Sqlite.fold_char d) && starts_with_nocase q' s'
  end.

(** [q] occurs somewhere in [s], the case of ASCII letters ignored: the
    search the specification describes. *)
Fixpoint contains_nocase (q s : string) : bool :=
  starts_with_nocase q s
  || match s with
     | EmptyString => false
     | String _ s' => contains_nocase q s'
     end.

(** No LIKE metacharacter in the text. *)
Fixpoint literal (q : string) : bool :=
  match q with
  | EmptyString => true
  | String c q' => negb (Ascii.eqb c "%") && negb (Ascii.eqb c "_") && literal q'
  end.

(** What a read of the single id [i] finds in the table. *)
Definition fetch (i : Z) (d : Sqlite.database) : option Book :=
  option_map book_of_row (Sqlite.select_id i d).

Definition ids (d : Sqlite.database) : list Z := map Sqlite.row_id (Sqlite.rows d).

Definition select_prompt : string := "Enter the number of the book to update: ".

Definition select_header (books : list Book) : list output :=
  [Table ([Txt "#"; Txt "Title"; Txt "Author"; Txt "Stock Level"] :: enumerate_rows books);
   Line ""].

(** What the selection loop writes for a refused integer line. *)
Definition refusal (line : string) : list output :=
  match Py.int line with
  | Some k => [Prompt select_prompt;
               Line ("'" ++ Py.str k ++ "' is not a valid choice, out of range.")]
  | None => []
  end.

(** An integer line outside 1..N. *)
Definition out_of_range (N : nat) (line : string) : Prop :=
  exists k, Py.int line = Some k /\ (k < 1 \/ Z.of_nat N < k).

(** One move of the program on the world: a write, the reading of a line,
    or one of the three statements with parameters that fit the columns. *)
Inductive step : world -> world -> Prop :=
| step_write inp out o d :
    step (mkWorld inp out d) (mkWorld inp (out ++ [o]) d)
| step_read line inp out d :
    step (mkWorld (line :: inp) out d) (mkWorld inp out d)
| step_insert inp out d t a q d' :
    Sqlite.fits_int64 q = true ->
    Sqlite.insert_auto t a q d = Some d' ->
    step (mkWorld inp out d) (mkWorld inp out d')
| step_update inp out d t a q i :
    Sqlite.fits_int64 q = true ->
    Sqlite.fits_int64 i = true ->
    step (mkWorld inp out d) (mkWorld inp out (Sqlite.update_where_id t a q i d))
| step_delete inp out d i :
    step (mkWorld inp out d) (mkWorld inp out (Sqlite.delete_where_id i d)).

Definition reaches : world -> world -> Prop := clos_refl_trans world step.

(** Whatever way [m] ends, it got there by moves of the program. *)
Definition respects {A : Type} (m : M A) : Prop :=
  forall w, reaches w (world_of (m w)).

(** A normal return of [m] has read at least one line. *)
Definition consuming {A : Type} (m : M A) : Prop :=
  forall w a w', m w = Ret a w' -> (List.length (stdin w') < List.length (stdin w))%nat.

(** With a budget [n] above the number of pending lines, [m] does not stop
    for lack of budget. *)
Definition total {A : Type} (n : nat) (m : M A) : Prop :=
  forall w, (List.length (stdin w) < n)%nat -> forall w', m w <> OutOfFuel w'.

(** Every quantity in the table is a 64-bit signed integer. *)
Definition quantities_fit (d : Sqlite.database) : Prop :=
  Forall (fun r => Sqlite.fits_int64 (Sqlite.row_qty r) = true) (Sqlite.rows d).

(** Every id and quantity in the table is a 64-bit signed integer. *)
Definition well_typed (d : Sqlite.database) : Prop :=
  Forall (fun r => Sqlite.fits_int64 (Sqlite.row_id r) = true
                   /\ Sqlite.fits_int64 (Sqlite.row_qty r) = true) (Sqlite.rows d).

(** What [search_books] writes when the matcher returns [found]. *)
Definition search_report (found : list Book) : list output :=
  ([Line "-- Search --"; Prompt "Query (title or author): "; Line "";
    Line (Py.str (Z.of_nat (List.length found)) ++ " result(s)"); Line ""]
   ++ match found with
      | [] => []
      | _ => [Table ([Txt "Title"; Txt "Author"; Txt "Stock Level"]
                     :: map (fun book => [Txt (title book); Txt (author book);
                                          Num (quantity book)]) found);
              Line ""]
      end)%list.

(** The records that hold [q] in the title or the author, the case of ASCII
    letters ignored, in table order. *)
Definition holding (q : string) (d : Sqlite.database) : list Book :=
  map book_of_row
    (filter (fun r => contains_nocase q (Sqlite.row_title r)
                      || contains_nocase q (Sqlite.row_author r))
            (Sqlite.rows d)).

(** The menu as [main_menu] prints it before each prompt. *)
Definition menu_lines : list output :=
  [Line "Please choose an option:"; Line "1. Enter book"; Line "2. Update book";
   Line "3. Delete book"; Line "4. Search books"; Line "0. Exit"].

(** What the helpers write for a line they refuse. *)
Definition empty_refusal (prompt : string) : list output :=
  [Prompt prompt; Line "Expected a value, please try again."].

Definition integer_refusal (prompt : string) : list output :=
  [Prompt prompt; Line "Expected an integer as input, please try again."].

(** A non-empty line that [int] does not accept. *)
Definition not_an_integer (line : string) : Prop :=
  line <> "" /\ Py.int line = None.




(** One pass of the add workflow as it is typed: title, author, stock line
    (with the integer it stands for) and the answer to "Add another?". *)
Record entry : Type := mkEntry {
  entry_title : string;
  entry_author : string;
  entry_stock : string;
  entry_quantity : Z;
  entry_answer : string
}.

Definition entry_lines (e : entry) : list string :=
  [entry_title e; entry_author e; entry_stock e; entry_answer e].

Definition valid_entry (e : entry) : Prop :=
  entry_title e <> "" /\ entry_author e <> ""
  /\ Py.int (entry_stock e) = Some (entry_quantity e)
  /\ Sqlite.fits_int64 (entry_quantity e) = true.

Definition says_yes (answer : string) : Prop := answer = "y" \/ answer = "Y".

(** The rows the entries become when ids are handed out from [i] on. *)
Fixpoint entry_rows (i : Z) (es : list entry) : list Sqlite.row :=
  match es with
  | [] => []
  | e :: es' =>
      (i, entry_title e, entry_author e, entry_quantity e) :: entry_rows (i + 1) es'
  end.

(** What one pass of the add workflow writes. *)
Definition add_round_output : list output :=
  [Line "Please enter the book details:"; Prompt "Title: "; Prompt "Author: ";
   Prompt "Number in stock: "; Line "Saved."; Line ""; Prompt "Add another? Y/N "].

(** The ids of the table in strictly ascending order, hence without repeats. *)
Definition ascending_ids (d : Sqlite.database) : Prop :=
  StronglySorted Z.lt (ids d).

(** Whatever way [m] ends, the world it ends in is related by [R] to the one
    it started in. *)
Definition keeps {A : Type} (R : world -> world -> Prop) (m : M A) : Prop :=
  forall w, R w (world_of (m w)).

(** The table is the same. *)
Definition same_table (w w' : world) : Prop := db w' = db w.

(** The table has its old rows, in place and unchanged, and possibly new ones
    after them. *)
Definition rows_appended (w w' : world) : Prop :=
  exists new, Sqlite.rows (db w') = (Sqlite.rows (db w) ++ new)%list.

(** [m] raises no exception outside [allowed]. *)
Definition raises_only {A : Type} (allowed : exn -> Prop) (m : M A) : Prop :=
  forall w e w', m w = Raise e w' -> allowed e.

(** The exceptions that leave the program: the end of the input, an integer
    too large for a column, a refusal by the engine. *)
Definition foreseen (e : exn) : Prop :=
  e = EOFError \/ e = OverflowError \/ e = OperationalError.

(** The engine reads a text as a C string and refuses a LIKE pattern of more
    than 50000 bytes; [Sqlite.like] is the engine's matching on texts without
    a NUL character and patterns within that limit.  The properties about what
    a search finds state these conditions. *)
Definition nul_free (s : string) : bool :=
  forallb (fun c => negb (Ascii.eqb c zero)) (list_ascii_of_string s).

(** The length of the text in UTF-8: two bytes for a code point above 127. *)
Definition utf8_length (s : string) : Z :=
  fold_right Z.add 0
    (map (fun c => if (nat_of_ascii c <? 128)%nat then 1 else 2) (list_ascii_of_string s)).

(** The wrapped query is a pattern the engine takes. *)
Definition pattern_fits (q : string) : bool := utf8_length (wrap q) <=? 50000.

(** No title and no author of the table holds a NUL character. *)
Definition plain_texts (d : Sqlite.database) : Prop :=
  Forall (fun r => nul_free (Sqlite.row_title r) = true
                   /\ nul_free (Sqlite.row_author r) = true) (Sqlite.rows d).

(** The table as the first run leaves it. *)
Definition seeded : Sqlite.database :=
  match initialise_database None with
  | Some d => d
  | None => Sqlite.create_table
  end.

(** * Properties *)

Example int_examples :
  map Py.int ["12"; " 12 "; "+1"; "-0"; "1_0"; "_1"; "1__0"; "0x10"; ""; "-"; "- 1"; "-007"; "1 2"]
  = [Some 12; Some 12; Some 1; Some 0; Some 10; None; None; None; None; None; None; Some (-7); None].
Proof. reflexivity. Qed.

Example int_refuses_long_literals :
  Py.int (string_of_list_ascii (repeat "1"%char 4300)) <> None
  /\ Py.int (string_of_list_ascii (repeat "1"%char 4301)) = None
  /\ Py.int (string_of_list_ascii (repeat "0"%char 4301)) = None.
Proof. split; [|split]; vm_compute; [discriminate | reflexivity | reflexivity]. Qed.

Example str_examples : map Py.str [0; 7; -5; 3006] = ["0"; "7"; "-5"; "3006"].
Proof. reflexivity. Qed.

Example like_examples :
  map (fun p => Sqlite.like p "Dune") ["Dun"; "%dUN%"; "%_%"; "____"; "___"; "%"; "d%e"; "%%%"]
  = [false; true; true; true; false; true; true; true].
Proof. reflexivity. Qed.

(** ** Text *)

Lemma lower_char_digit (c d : ascii) :
  In d ["0"; "1"; "2"; "3"; "4"]%char -> Py.lower_char c = d -> c = d.
Proof.
  intros Hd H. subst d.
  destruct c as [[] [] [] [] [] [] [] []]; vm_compute in Hd |- *;
    try reflexivity; exfalso;
    repeat (destruct Hd as [Hd | Hd]; [discriminate Hd|]); exact Hd.
Qed.

Lemma lower_digit (s : string) (d : ascii) :
  In d ["0"; "1"; "2"; "3"; "4"]%char ->
  Py.lower s = String d EmptyString -> s = String d EmptyString.
Proof.
  intros Hd H. destruct s as [|c [|c' s']]; simpl in H; try discriminate.
  injection H as H. f_equal. now apply lower_char_digit.
Qed.

Lemma lower_y (s : string) : Py.lower s = "y" <-> s = "y" \/ s = "Y".
Proof.
  split.
  - destruct s as [|c [|c' s']]; simpl; try discriminate.
    intros H. injection H as H.
    destruct c as [[] [] [] [] [] [] [] []]; vm_compute in H; try discriminate H; auto.
  - intros [-> | ->]; reflexivity.
Qed.

Lemma non_empty_false (s : string) : Py.non_empty s = false <-> s = "".
Proof. unfold Py.non_empty, Nat.ltb. destruct s; simpl; split; intros; congruence. Qed.

Lemma length_zero (s : string) : (String.length s =? 0)%nat = true <-> s = "".
Proof. destruct s; simpl; split; intros; congruence. Qed.

(** ** LIKE *)

Section Like.

Import Sqlite.

Lemma like_percent (p s : string) :
  like (String "%" p) s
  = like p s || match s with
                | EmptyString => false
                | String _ t => like (String "%" p) t
                end.
Proof. destruct s; reflexivity. Qed.

Lemma like_percent_here (p s : string) :
  like p s = true -> like (String "%" p) s = true.
Proof. intros H. rewrite like_percent, H. reflexivity. Qed.

Lemma like_percent_later (p pre t : string) :
  like (String "%" p) t = true -> like (String "%" p) (pre ++ t) = true.
Proof.
  intros H. induction pre as [|c pre IH]; simpl append; [assumption|].
  rewrite like_percent, IH. apply orb_true_r.
Qed.

Lemma like_any (s : string) : like "%" s = true.
Proof.
  induction s as [|c s IH]; [reflexivity|].
  rewrite like_percent, IH. apply orb_true_r.
Qed.

Lemma like_char (c : ascii) (p : string) (d : ascii) (s : string) :
  Ascii.eqb c "%" = false ->
  like (String c p) (String d s)
  = (Ascii.eqb c "_" || Ascii.eqb (fold_char c) (fold_char d)) && like p s.
Proof. intros H. simpl. rewrite H. reflexivity. Qed.

Lemma like_char_empty (c : ascii) (p : string) :
  Ascii.eqb c "%" = false -> like (String c p) "" = false.
Proof. intros H. simpl. rewrite H. reflexivity. Qed.

Lemma like_app (p1 s1 p2 s2 : string) :
  like p1 s1 = true -> like p2 s2 = true -> like (p1 ++ p2) (s1 ++ s2) = true.
Proof.
  revert s1. induction p1 as [|c p1 IH]; intros s1 H1 H2.
  - destruct s1; [assumption | discriminate].
  - destruct (Ascii.eqb c "%") eqn:E.
    + apply Ascii.eqb_eq in E. subst c. simpl append.
      induction s1 as [|d s1 IHs].
      * rewrite like_percent in H1. rewrite orb_false_r in H1.
        apply like_percent_here. now apply (IH "").
      * rewrite like_percent in H1. apply orb_true_iff in H1.
        destruct H1 as [H1 | H1].
        -- apply like_percent_here. now apply (IH (String d s1)).
        -- change (String d s1 ++ s2) with (String d (s1 ++ s2)).
           rewrite like_percent, (IHs H1). apply orb_true_r.
    + destruct s1 as [|d s1].
      * now rewrite like_char_empty in H1.
      * rewrite like_char in H1 by assumption.
        apply andb_true_iff in H1. destruct H1 as [Hc H1].
        change (like (String c (p1 ++ p2)) (String d (s1 ++ s2)) = true).
        rewrite like_char by assumption.
        rewrite Hc. now apply IH.
Qed.

Lemma fold_case_cons (c : ascii) (s : string) :
  fold_case (String c s) = String (fold_char c) (fold_case s).
Proof. reflexivity. Qed.

(** A pattern matches every text equal to it up to the case of ASCII
    letters, whatever metacharacters it holds. *)
Lemma like_same_nocase (q s : string) :
  fold_case s = fold_case q -> like q s = true.
Proof.
  revert s. induction q as [|c q IH]; intros s H.
  - destruct s; [reflexivity | discriminate].
  - destruct s as [|d s]; [discriminate|].
    rewrite !fold_case_cons in H. injection H as Hc H.
    destruct (Ascii.eqb c "%") eqn:E.
    + apply Ascii.eqb_eq in E. subst c.
      rewrite like_percent. rewrite (like_percent_here q s (IH s H)).
      apply orb_true_r.
    + rewrite like_char by assumption.
      rewrite Hc, Ascii.eqb_refl, orb_true_r. now apply IH.
Qed.

Lemma like_wrap_occurs (q s : string) :
  occurs_in q s -> like (wrap q) s = true.
Proof.
  intros (pre & post & ->). unfold wrap. simpl append.
  apply like_percent_later, like_percent_here, like_app.
  - now apply like_same_nocase.
  - apply like_any.
Qed.

Lemma like_literal_prefix (q s : string) :
  literal q = true -> like (q ++ "%") s = starts_with_nocase q s.
Proof.
  revert s. induction q as [|c q IH]; intros s Hq.
  - simpl append. rewrite like_any. now destruct s.
  - simpl in Hq. apply andb_true_iff in Hq. destruct Hq as [Hc Hq].
    apply andb_true_iff in Hc. destruct Hc as [Hp Hu].
    apply negb_true_iff in Hp, Hu.
    destruct s as [|d s]; simpl append.
    + now rewrite like_char_empty.
    + rewrite like_char by assumption. rewrite Hu. simpl. now rewrite IH.
Qed.

(** For a metacharacter-free query the wrapped pattern is the
    case-insensitive substring test. *)
Lemma like_wrap_literal (q s : string) :
  literal q = true -> like (wrap q) s = contains_nocase q s.
Proof.
  intros Hq. unfold wrap. simpl append.
  induction s as [|d s IH].
  - rewrite like_percent, like_literal_prefix by assumption. reflexivity.
  - rewrite like_percent, like_literal_prefix, IH by assumption. reflexivity.
Qed.

Lemma starts_with_nocase_spec (q s : string) :
  starts_with_nocase q s = true
  <-> exists mid post, s = mid ++ post /\ fold_case mid = fold_case q.
Proof.
  revert s. induction q as [|c q IH]; intros s.
  - split; [intros _; now exists "", s|reflexivity].
  - destruct s as [|d s]; simpl.
    + split; [discriminate|].
      intros (mid & post & Hs & Hm). destruct mid; discriminate.
    + rewrite andb_true_iff, Ascii.eqb_eq, IH. split.
      * intros (Hc & mid & post & -> & Hm).
        exists (String d mid), post. split; [reflexivity|].
        rewrite !fold_case_cons. congruence.
      * intros (mid & post & Hs & Hm).
        destruct mid as [|e mid]; [discriminate|].
        rewrite !fold_case_cons in Hm. injection Hm as Hc Hm.
        simpl in Hs. injection Hs as -> ->.
        split; [congruence|]. now exists mid, post.
Qed.

Lemma contains_nocase_spec (q s : string) :
  contains_nocase q s = true
  <-> exists pre mid post, s = pre ++ mid ++ post /\ fold_case mid = fold_case q.
Proof.
  induction s as [|d s IH]; simpl contains_nocase.
  - rewrite orb_false_r, starts_with_nocase_spec. split.
    + intros (mid & post & Hs & Hm). now exists "", mid, post.
    + intros (pre & mid & post & Hs & Hm).
      destruct pre; [|discriminate]. now exists mid, post.
  - rewrite orb_true_iff, starts_with_nocase_spec, IH. split.
    + intros [(mid & post & Hs & Hm) | (pre & mid & post & Hs & Hm)].
      * now exists "", mid, post.
      * exists (String d pre), mid, post. simpl. now rewrite Hs.
    + intros (pre & mid & post & Hs & Hm). destruct pre as [|e pre].
      * left. now exists mid, post.
      * right. simpl in Hs. injection Hs as -> ->. now exists pre, mid, post.
Qed.

(** The one-character query [_]: the wrapped pattern matches exactly the
    non-empty texts. *)
Lemma like_wrap_underscore (s : string) : like (wrap "_") s = Py.non_empty s.
Proof.
  unfold wrap. simpl append. destruct s as [|d s]; [reflexivity|].
  rewrite like_percent, like_char by reflexivity.
  simpl. now rewrite like_any.
Qed.

(** The one-character query [%]: the wrapped pattern matches every text. *)
Lemma like_wrap_percent (s : string) : like (wrap "%") s = true.
Proof.
  unfold wrap. simpl append.
  do 2 apply like_percent_here. apply like_any.
Qed.

End Like.

(** ** The table *)

Section Store.

Import Sqlite.

Lemma largest_id_ge (rs : list row) (r : row) :
  In r rs -> row_id r <= largest_id rs.
Proof.
  induction rs as [|r' rs IH]; simpl; [tauto|].
  intros [-> | H]; [lia|]. specialize (IH H). lia.
Qed.

Lemma next_id_above (d : database) (i : Z) :
  next_id d = Some i ->
  sequence d < i /\ i <= max_int64 /\ forall r, In r (rows d) -> row_id r < i.
Proof.
  unfold next_id. destruct (Z.ltb_spec (Z.max (sequence d) (largest_id (rows d))) max_int64);
    [|discriminate].
  intros [= <-]. repeat split; try lia.
  intros r Hr. apply largest_id_ge in Hr. lia.
Qed.

Lemma next_id_fresh (d : database) (i : Z) :
  next_id d = Some i -> ~ In i (ids d).
Proof.
  intros H Hin. apply next_id_above in H. destruct H as (_ & _ & H).
  unfold ids in Hin. apply in_map_iff in Hin. destruct Hin as (r & <- & Hr).
  specialize (H r Hr). lia.
Qed.

Lemma find_absent (i : Z) (rs : list row) :
  ~ In i (map row_id rs) -> find (fun r => row_id r =? i) rs = None.
Proof.
  induction rs as [|r rs IH]; simpl; [reflexivity|].
  intros H. destruct (Z.eqb_spec (row_id r) i); [tauto|]. apply IH. tauto.
Qed.

Lemma find_app_absent (i : Z) (rs rs' : list row) :
  ~ In i (map row_id rs) ->
  find (fun r => row_id r =? i) (rs ++ rs') = find (fun r => row_id r =? i) rs'.
Proof.
  induction rs as [|r rs IH]; simpl; [reflexivity|].
  intros H. destruct (Z.eqb_spec (row_id r) i); [tauto|]. apply IH. tauto.
Qed.

Lemma find_app_other (j : Z) (rs : list row) (r : row) :
  row_id r <> j ->
  find (fun r => row_id r =? j) (rs ++ [r]) = find (fun r => row_id r =? j) rs.
Proof.
  intros H. induction rs as [|r' rs IH]; simpl.
  - destruct (Z.eqb_spec (row_id r) j); [contradiction | reflexivity].
  - destruct (row_id r' =? j); [reflexivity | exact IH].
Qed.

Lemma fetch_insert_auto (t a : string) (q : Z) (d d' : database) (i : Z) :
  next_id d = Some i ->
  insert_auto t a q d = Some d' ->
  fetch i d' = Some (mkBook i t a q)
  /\ forall j, j <> i -> fetch j d' = fetch j d.
Proof.
  intros Hn. unfold insert_auto. rewrite Hn. intros [= <-].
  unfold fetch, select_id. simpl rows. split.
  - rewrite find_app_absent by (now apply next_id_fresh).
    simpl. now rewrite Z.eqb_refl.
  - intros j Hj. rewrite find_app_other; [reflexivity | simpl; congruence].
Qed.

Lemma fetch_delete_same (i : Z) (d : database) :
  fetch i (delete_where_id i d) = None.
Proof.
  unfold fetch, select_id, delete_where_id. simpl rows.
  induction (rows d) as [|r rs IH]; simpl; [reflexivity|].
  destruct (Z.eqb_spec (row_id r) i) as [E | E]; simpl; [exact IH|].
  destruct (Z.eqb_spec (row_id r) i); [contradiction | exact IH].
Qed.

Lemma fetch_delete_other (i j : Z) (d : database) :
  j <> i -> fetch j (delete_where_id i d) = fetch j d.
Proof.
  intros Hj. unfold fetch, select_id, delete_where_id. simpl rows.
  induction (rows d) as [|r rs IH]; simpl; [reflexivity|].
  destruct (Z.eqb_spec (row_id r) i) as [E | E]; simpl.
  - destruct (Z.eqb_spec (row_id r) j); [congruence | exact IH].
  - destruct (row_id r =? j); [reflexivity | exact IH].
Qed.

Lemma delete_absent (i : Z) (d : database) :
  fetch i d = None -> delete_where_id i d = d.
Proof.
  destruct d as [rs sq]. unfold fetch, select_id, delete_where_id. simpl.
  intros H. f_equal.
  induction rs as [|r rs IH]; simpl in *; [reflexivity|].
  destruct (row_id r =? i); simpl in *; [discriminate|].
  f_equal. now apply IH.
Qed.

Lemma delete_keeps_others (i : Z) (d : database) (r : row) :
  In r (rows (delete_where_id i d)) <-> In r (rows d) /\ row_id r <> i.
Proof.
  unfold delete_where_id. simpl rows. rewrite filter_In, negb_true_iff, Z.eqb_neq.
  reflexivity.
Qed.



Lemma fetch_some_in (i : Z) (d : database) (b : Book) :
  fetch i d = Some b -> id b = i /\ exists r, In r (rows d) /\ book_of_row r = b.
Proof.
  unfold fetch, select_id. destruct (find _ _) as [r|] eqn:E; [|discriminate].
  intros [= <-]. apply find_some in E. destruct E as [Hin E].
  apply Z.eqb_eq in E. split; [exact E|]. now exists r.
Qed.

End Store.

(** ** Claims about the storage statements *)

(** C4.  On the first run, when ebookstore.db does not exist, initialisation
    creates the table and leaves exactly the five seed records in it, ids 3001
    to 3005 with the literal titles, authors and quantities; when the file
    exists, initialisation returns its table as it is and seeds nothing. *)
Theorem first_run_seeds_five_books :
  initialise_database None
  = Some (Sqlite.mkDb
            [ (3001, "A Tale of Two Cities", "Charles Dickens", 30);
              (3002, "Harry Potter and the Philosopher's Stone", "J. K. Rowling", 40);
              (3003, "The Lion, the Witch, and the Warderobe", "C. S. Lewis", 25);
              (3004, "The Lord of the Rings", "J. R. R. Tolkien", 37);
              (3005, "Alice in Wonderland", "Lewis Carroll", 12) ]
            3005)
  /\ forall d : Sqlite.database, initialise_database (Some d) = Some d.
Proof. split; reflexivity. Qed.

Lemma find_matching_books_eq (query : string) (w : world) :
  find_matching_books query w
  = Ret (map book_of_row (Sqlite.select_like query query (db w))) w.
Proof. reflexivity. Qed.

Lemma world_eta (w : world) : mkWorld (stdin w) (stdout w) (db w) = w.
Proof. now destruct w. Qed.

Lemma execute_delete_eq (i : Z) (w : world) :
  Sqlite.fits_int64 i = true ->
  execute_delete i w
  = Ret tt (mkWorld (stdin w) (stdout w) (Sqlite.delete_where_id i (db w))).
Proof. intros H. unfold execute_delete, bind, bind_int. now rewrite H. Qed.

(** C3.  Deleting by id: for every (64-bit) id [i] the DELETE statement of
    the delete workflow completes without an exception; afterwards a read of
    [i] finds no record and no result of [find_matching_books] carries the id
    [i]; records with other ids are untouched; and when no record has id [i]
    the statement changes nothing at all. *)
Theorem delete_removes_record (i : Z) (w : world) :
  Sqlite.fits_int64 i = true ->
  exists w',
    execute_delete i w = Ret tt w'
    /\ fetch i (db w') = None
    /\ (forall query, exists books,
           find_matching_books query w' = Ret books w'
           /\ forall b, In b books -> id b <> i)
    /\ (forall j, j <> i -> fetch j (db w') = fetch j (db w))
    /\ (fetch i (db w) = None -> w' = w).
Proof.
  intros Hi. eexists. split; [now apply execute_delete_eq|]. simpl db.
  split; [apply fetch_delete_same|]. split; [|split].
  - intros query. eexists. split; [apply find_matching_books_eq|].
    intros b Hb. simpl db in Hb. apply in_map_iff in Hb.
    destruct Hb as (r & <- & Hr). unfold Sqlite.select_like in Hr.
    apply filter_In in Hr. destruct Hr as [Hr _].
    apply delete_keeps_others in Hr. exact (proj2 Hr).
  - intros j Hj. now apply fetch_delete_other.
  - intros H. rewrite (delete_absent _ _ H). apply world_eta.
Qed.

Lemma delete_removes_record_witness :
  exists w',
    execute_delete 3002 (mkWorld [] [] seeded) = Ret tt w'
    /\ fetch 3002 (db w') = None
    /\ (forall query, exists books,
           find_matching_books query w' = Ret books w'
           /\ forall b, In b books -> id b <> 3002)
    /\ (forall j, j <> 3002 -> fetch j (db w') = fetch j seeded)
    /\ (fetch 3002 seeded = None -> w' = mkWorld [] [] seeded).
Proof. apply (delete_removes_record 3002 (mkWorld [] [] seeded)). reflexivity. Defined.

(** C10.  Matching is not literal substring containment: the query text is
    placed in the LIKE pattern as it is, so the query [_] finds every record
    whose title or author is non-empty and the query [%] finds every record;
    on the seed table the query [_] finds all five records although no seed
    title or author holds an underscore. *)
Theorem wildcard_queries_are_not_literal :
  (forall w,
      find_matching_books (wrap "_") w
      = Ret (map book_of_row
               (filter (fun r => Py.non_empty (Sqlite.row_title r)
                                 || Py.non_empty (Sqlite.row_author r))
                       (Sqlite.rows (db w)))) w)
  /\ (forall w,
         find_matching_books (wrap "%") w = Ret (map book_of_row (Sqlite.rows (db w))) w)
  /\ List.length (Sqlite.select_like (wrap "_") (wrap "_") seeded) = 5%nat
  /\ forallb (fun r => negb (contains_nocase "_" (Sqlite.row_title r))
                       && negb (contains_nocase "_" (Sqlite.row_author r)))
             (Sqlite.rows seeded) = true.
Proof.
  split; [|split; [|split; reflexivity]].
  - intros w. rewrite find_matching_books_eq. do 2 f_equal.
    apply filter_ext. intros r. now rewrite !like_wrap_underscore.
  - intros w. rewrite find_matching_books_eq. do 2 f_equal.
    unfold Sqlite.select_like. induction (Sqlite.rows (db w)) as [|r rs IH]; [reflexivity|].
    simpl. rewrite like_wrap_percent. simpl. now f_equal.
Qed.

(** ** Running the input helpers *)

Lemma while_true_S {A : Type} (n : nat) (body : M (option A)) (w : world) :
  while_true (S n) body w
  = match body w with
    | Ret (Some a) w' => Ret a w'
    | Ret None w' => while_true n body w'
    | Raise e w' => Raise e w'
    | OutOfFuel w' => OutOfFuel w'
    end.
Proof. reflexivity. Qed.

Lemma bind_print {A : Type} (s : string) (k : unit -> M A)
  (inp : list string) (out : list output) (d : Sqlite.database) :
  bind (print s) k (mkWorld inp out d) = k tt (mkWorld inp (out ++ [Line s]) d).
Proof. reflexivity. Qed.

Section Helpers.

Variables (n : nat) (prompt line : string) (rest : list string).
Variables (out : list output) (d : Sqlite.database).

Lemma input_cons : input prompt (mkWorld (line :: rest) out d) = Ret line (mkWorld rest (out ++ [Prompt prompt]) d).
Proof. reflexivity. Qed.

Lemma input_non_empty_string_accept :
  line <> "" ->
  input_non_empty_string (S n) prompt (mkWorld (line :: rest) out d) = Ret line (mkWorld rest (out ++ [Prompt prompt]) d).
Proof.
  intros H. unfold input_non_empty_string. rewrite while_true_S.
  unfold bind. rewrite input_cons.
  destruct (Py.non_empty line) eqn:E; [reflexivity|].
  now apply non_empty_false in E.
Qed.

Lemma input_integer_accept (v : Z) :
  Py.int line = Some v ->
  input_integer (S n) prompt (mkWorld (line :: rest) out d) = Ret v (mkWorld rest (out ++ [Prompt prompt]) d).
Proof.
  intros H. unfold input_integer. rewrite while_true_S.
  unfold bind. rewrite input_cons, H. reflexivity.
Qed.

Lemma input_integer_or_none_blank :
  input_integer_or_none (S n) prompt (mkWorld ("" :: rest) out d) = Ret None (mkWorld rest (out ++ [Prompt prompt]) d).
Proof. reflexivity. Qed.

Lemma input_integer_or_none_accept (v : Z) :
  line <> "" -> Py.int line = Some v ->
  input_integer_or_none (S n) prompt (mkWorld (line :: rest) out d)
  = Ret (Some v) (mkWorld rest (out ++ [Prompt prompt]) d).
Proof.
  intros Hl H. unfold input_integer_or_none. rewrite while_true_S.
  unfold bind. rewrite input_cons.
  destruct (String.length line =? 0)%nat eqn:E.
  - now apply length_zero in E.
  - rewrite H. reflexivity.
Qed.

End Helpers.

(** What a call of [input_integer] can end in: a value read from a consumed
    line, or [EOFError] at an exhausted terminal; the table is not touched. *)
Lemma input_integer_outcome (k : nat) (prompt : string) (w : world) :
  match input_integer k prompt w with
  | Ret _ w' => (List.length (stdin w') < List.length (stdin w))%nat /\ db w' = db w
  | Raise e w' => e = EOFError /\ stdin w' = [] /\ db w' = db w
  | OutOfFuel w' => (k <= List.length (stdin w))%nat /\ db w' = db w
  end.
Proof.
  unfold input_integer. set (body := bind _ _).
  revert w. induction k as [|k IH]; intros w.
  - simpl. split; [lia | reflexivity].
  - rewrite while_true_S. destruct w as [[|l inp] out d].
    + simpl. auto.
    + unfold body at 1, bind at 1. rewrite input_cons. destruct (Py.int l) as [v|].
      * simpl. split; [lia | reflexivity].
      * rewrite bind_print. unfold ret. cbv beta iota.
        match goal with |- context [while_true k body ?w'] =>
          specialize (IH w'); destruct (while_true k body w') end;
          simpl in *; intuition lia.
Qed.

(** ** Selecting from the displayed list *)

Lemma select_book_body_accept (n : nat) (books : list Book) (line : string) (k : Z)
  (b : Book) (rest : list string) (out : list output) (d : Sqlite.database) :
  Py.int line = Some k -> 1 <= k ->
  nth_error books (Z.to_nat (k - 1)) = Some b ->
  select_book_body (S n) books (mkWorld (line :: rest) out d)
  = Ret (Some b) (mkWorld rest (out ++ [Prompt select_prompt]) d).
Proof.
  intros Hk H1 Hb. unfold select_book_body, bind.
  rewrite (input_integer_accept _ _ _ _ _ _ _ Hk).
  assert (Hlen : (Z.to_nat (k - 1) < List.length books)%nat)
    by (apply nth_error_Some; congruence).
  assert (E1 : (k - 1 <? 0) = false) by (apply Z.ltb_ge; lia).
  assert (E2 : (k - 1 >=? Z.of_nat (List.length books)) = false)
    by (rewrite Z.geb_leb; apply Z.leb_gt; lia).
  unfold list_get. cbv zeta. rewrite !E1, E2, Hb. reflexivity.
Qed.

Lemma select_book_body_refuse (n : nat) (books : list Book) (line : string)
  (rest : list string) (out : list output) (d : Sqlite.database) :
  out_of_range (List.length books) line ->
  select_book_body (S n) books (mkWorld (line :: rest) out d)
  = Ret None (mkWorld rest (out ++ refusal line) d).
Proof.
  intros (k & Hk & Hr). unfold select_book_body, bind.
  rewrite (input_integer_accept _ _ _ _ _ _ _ Hk).
  assert (E : (k - 1 <? 0) || (k - 1 >=? Z.of_nat (List.length books)) = true).
  { apply orb_true_iff. destruct Hr; [left; apply Z.ltb_lt | right; apply Z.geb_le]; lia. }
  rewrite E. unfold refusal, out_of_range_message, print, write. rewrite Hk.
  cbn [stdin stdout db]. rewrite Z.sub_add, <- app_assoc. reflexivity.
Qed.

Lemma select_loop_trace (n : nat) (books : list Book) (line : string) (k : Z) (b : Book)
  (rest : list string) (d : Sqlite.database) :
  Py.int line = Some k -> 1 <= k ->
  nth_error books (Z.to_nat (k - 1)) = Some b ->
  forall (refused : list string) (fuel : nat) (out : list output),
    Forall (out_of_range (List.length books)) refused ->
    (List.length refused < fuel)%nat ->
    while_true fuel (select_book_body (S n) books)
      (mkWorld (refused ++ line :: rest) out d)
    = Ret b (mkWorld rest (out ++ flat_map refusal refused ++ [Prompt select_prompt]) d).
Proof.
  intros Hk H1 Hb. induction refused as [|r refused IH]; intros fuel out Hr Hf;
    (destruct fuel as [|fuel]; [simpl in Hf; lia|]); rewrite while_true_S.
  - simpl app. now rewrite (select_book_body_accept _ _ _ _ _ _ _ _ Hk H1 Hb).
  - inversion Hr as [|? ? Hr1 Hr2]; subst.
    change ((r :: refused) ++ line :: rest)%list with (r :: (refused ++ line :: rest))%list.
    rewrite (select_book_body_refuse _ _ _ _ _ _ Hr1).
    rewrite IH by (simpl in Hf; auto; lia).
    simpl flat_map. now rewrite <- !app_assoc.
Qed.

(** C5.  For a displayed list of N >= 1 books, the selection step accepts an
    entered integer k exactly when 1 <= k <= N: every integer line outside
    that range (0, negative values and N+1 among them) is answered with the
    message naming the value and a new prompt, and the first line inside the
    range ends the step with the k-th book of the displayed enumeration. *)
Theorem select_book_accepts_exactly_in_range (n : nat) (books : list Book)
  (refused : list string) (line : string) (k : Z)
  (rest : list string) (out : list output) (d : Sqlite.database) :
  (1 <= List.length books)%nat ->
  Forall (out_of_range (List.length books)) refused ->
  (List.length refused <= n)%nat ->
  Py.int line = Some k ->
  1 <= k <= Z.of_nat (List.length books) ->
  exists b,
    nth_error books (Z.to_nat (k - 1)) = Some b
    /\ select_book_from_list (S n) books (mkWorld (refused ++ line :: rest) out d)
       = Ret b (mkWorld rest
                  (out ++ select_header books ++ flat_map refusal refused
                       ++ [Prompt select_prompt]) d).
Proof.
  intros _ Hr Hn Hk Hrange.
  destruct (nth_error books (Z.to_nat (k - 1))) as [b|] eqn:Hb.
  2: { apply nth_error_None in Hb. lia. }
  exists b. split; [reflexivity|].
  unfold select_book_from_list, bind, print_table, print, write. cbn [stdin stdout db].
  rewrite (select_loop_trace n books line k b rest d Hk (proj1 Hrange) Hb) by (auto; lia).
  unfold select_header. now rewrite <- !app_assoc.
Qed.

(** ** Moves, consumption of input and budget of the workflows *)

Lemma reaches_refl (w : world) : reaches w w.
Proof. apply rt_refl. Qed.

Lemma reaches_trans (w1 w2 w3 : world) : reaches w1 w2 -> reaches w2 w3 -> reaches w1 w3.
Proof. apply rt_trans. Qed.

Lemma reaches_suffix (w w' : world) :
  reaches w w' -> exists pre, stdin w = (pre ++ stdin w')%list.
Proof.
  intros H. apply clos_rt_rt1n in H. induction H as [w|w w1 w' Hs _ IH].
  - now exists [].
  - destruct IH as [pre IH]. destruct Hs; simpl in *; eauto.
    exists (line :: pre). simpl. now rewrite IH.
Qed.

Lemma reaches_length (w w' : world) :
  reaches w w' -> (List.length (stdin w') <= List.length (stdin w))%nat.
Proof.
  intros H. apply reaches_suffix in H. destruct H as [pre ->].
  rewrite length_app. lia.
Qed.

Section Combinators.

Context {A B : Type}.

Lemma respects_ret (a : A) : respects (ret a).
Proof. intros w. apply reaches_refl. Qed.

Lemma respects_raise (e : exn) : respects (@raise A e).
Proof. intros w. apply reaches_refl. Qed.

Lemma respects_bind (m : M A) (k : A -> M B) :
  respects m -> (forall a, respects (k a)) -> respects (bind m k).
Proof.
  intros Hm Hk w. unfold bind. specialize (Hm w).
  destruct (m w) as [a w1|e w1|w1]; simpl in *; [|assumption..].
  eapply reaches_trans; [exact Hm | apply Hk].
Qed.

Lemma respects_while (k : nat) (body : M (option A)) :
  respects body -> respects (while_true k body).
Proof.
  intros Hb. induction k as [|k IH]; intros w; [apply reaches_refl|].
  rewrite while_true_S. specialize (Hb w).
  destruct (body w) as [[a|] w1|e w1|w1]; simpl in *; try assumption.
  eapply reaches_trans; [exact Hb | apply IH].
Qed.

Lemma total_ret (n : nat) (a : A) : total n (ret a).
Proof. intros w _ w'. discriminate. Qed.

Lemma total_raise (n : nat) (e : exn) : total n (@raise A e).
Proof. intros w _ w'. discriminate. Qed.

Lemma total_bind (n : nat) (m : M A) (k : A -> M B) :
  total n m -> respects m -> (forall a, total n (k a)) -> total n (bind m k).
Proof.
  intros Hm Hr Hk w Hw w'. unfold bind. specialize (Hm w Hw). specialize (Hr w).
  destruct (m w) as [a w1|e w1|w1]; simpl in *.
  - apply Hk. apply reaches_length in Hr. lia.
  - discriminate.
  - now destruct (Hm w1).
Qed.

Lemma consuming_bind_l (m : M A) (k : A -> M B) :
  consuming m -> (forall a, respects (k a)) -> consuming (bind m k).
Proof.
  intros Hm Hk w b w'. unfold bind. specialize (Hm w).
  destruct (m w) as [a w1|e w1|w1]; try discriminate.
  intros E. specialize (Hm a w1 eq_refl). specialize (Hk a w1). rewrite E in Hk.
  apply reaches_length in Hk. simpl in Hk. lia.
Qed.

Lemma consuming_bind_r (m : M A) (k : A -> M B) :
  respects m -> (forall a, consuming (k a)) -> consuming (bind m k).
Proof.
  intros Hm Hk w b w'. unfold bind. specialize (Hm w).
  destruct (m w) as [a w1|e w1|w1]; try discriminate.
  intros E. apply Hk in E. apply reaches_length in Hm. simpl in Hm. lia.
Qed.

Lemma consuming_while (k : nat) (body : M (option A)) :
  consuming body -> consuming (while_true k body).
Proof.
  intros Hb. induction k as [|k IH]; intros w a w'; [discriminate|].
  rewrite while_true_S. specialize (Hb w).
  destruct (body w) as [[a1|] w1|e w1|w1]; try discriminate.
  - intros [= <- <-]. now apply (Hb (Some a1)).
  - intros E. apply IH in E. specialize (Hb None w1 eq_refl). lia.
Qed.

Lemma total_while (n : nat) (body : M (option A)) :
  consuming body -> total n body -> total n (while_true n body).
Proof.
  intros Hc Hb. unfold total.
  enough (H : forall k w, (List.length (stdin w) < k)%nat ->
                          (List.length (stdin w) < n)%nat ->
                          forall w', while_true k body w <> OutOfFuel w')
    by (intros w Hw; now apply H).
  induction k as [|k IH]; intros w Hk Hn w'; [lia|].
  rewrite while_true_S. specialize (Hb w Hn). specialize (Hc w).
  destruct (body w) as [[a1|] w1|e w1|w1]; try discriminate.
  - specialize (Hc None w1 eq_refl). apply IH; lia.
  - now destruct (Hb w1).
Qed.

End Combinators.

Lemma respects_write (o : output) : respects (write o).
Proof. intros [inp out d]. apply rt_step. constructor. Qed.

Lemma respects_input (prompt : string) : respects (input prompt).
Proof.
  intros [[|l inp] out d]; unfold input; simpl.
  - apply rt_step. constructor.
  - eapply rt_trans; apply rt_step; [apply step_read | apply step_write].
Qed.

Lemma consuming_input (prompt : string) : consuming (input prompt).
Proof.
  intros [[|l inp] out d] a w'; unfold input; simpl; [discriminate|].
  intros [= <- <-]. simpl. lia.
Qed.

Lemma total_write (n : nat) (o : output) : total n (write o).
Proof. intros w _ w'. discriminate. Qed.

Lemma total_input (n : nat) (prompt : string) : total n (input prompt).
Proof. intros [[|l inp] out d] _ w'; discriminate. Qed.

Lemma respects_find_matching_books (query : string) : respects (find_matching_books query).
Proof. intros w. apply reaches_refl. Qed.

Lemma total_find_matching_books (n : nat) (query : string) :
  total n (find_matching_books query).
Proof. intros w _ w'. discriminate. Qed.

Lemma respects_list_get {A : Type} (l : list A) (index : Z) : respects (list_get l index).
Proof.
  intros w. unfold list_get.
  destruct (_ <? 0); [apply reaches_refl|]. destruct (nth_error _ _); apply reaches_refl.
Qed.

Lemma total_list_get {A : Type} (n : nat) (l : list A) (index : Z) :
  total n (list_get l index).
Proof.
  intros w _ w'. unfold list_get.
  destruct (_ <? 0); [discriminate|]. destruct (nth_error _ _); discriminate.
Qed.

Lemma respects_execute_insert (t a : string) (q : Z) : respects (execute_insert t a q).
Proof.
  intros [inp out d]. unfold execute_insert, bind, bind_int.
  destruct (Sqlite.fits_int64 q) eqn:Hq; [|apply reaches_refl].
  unfold ret, execute. simpl db.
  destruct (Sqlite.insert_auto t a q d) as [d'|] eqn:E; [|apply reaches_refl].
  apply rt_step. now apply step_insert with t a q.
Qed.

Lemma respects_execute_update (b : Book) : respects (execute_update b).
Proof.
  intros [inp out d]. unfold execute_update, bind, bind_int.
  destruct (Sqlite.fits_int64 (quantity b)) eqn:Hq; [|apply reaches_refl].
  unfold ret. destruct (Sqlite.fits_int64 (id b)) eqn:Hi; [|apply reaches_refl].
  apply rt_step. now apply step_update.
Qed.

Lemma respects_execute_delete (i : Z) : respects (execute_delete i).
Proof.
  intros [inp out d]. unfold execute_delete, bind, bind_int.
  destruct (Sqlite.fits_int64 i); [|apply reaches_refl].
  apply rt_step. apply step_delete.
Qed.

Lemma total_execute_insert (n : nat) (t a : string) (q : Z) : total n (execute_insert t a q).
Proof.
  intros w _ w'. unfold execute_insert, bind, bind_int, execute.
  destruct (Sqlite.fits_int64 q); [|discriminate]. unfold ret.
  destruct (Sqlite.insert_auto _ _ _ _); discriminate.
Qed.

Lemma total_execute_update (n : nat) (b : Book) : total n (execute_update b).
Proof.
  intros w _ w'. unfold execute_update, bind, bind_int.
  destruct (Sqlite.fits_int64 (quantity b)); [|discriminate]. unfold ret.
  destruct (Sqlite.fits_int64 (id b)); discriminate.
Qed.

Lemma total_execute_delete (n : nat) (i : Z) : total n (execute_delete i).
Proof.
  intros w _ w'. unfold execute_delete, bind, bind_int.
  destruct (Sqlite.fits_int64 i); discriminate.
Qed.

Create HintDb prog.

#[local] Hint Resolve
  respects_ret respects_raise respects_write respects_input
  respects_find_matching_books respects_list_get
  respects_execute_insert respects_execute_update respects_execute_delete
  total_ret total_raise total_write total_input total_find_matching_books
  total_list_get total_execute_insert total_execute_update total_execute_delete
  consuming_input : prog.

(** Takes a goal about a composed program apart along its structure and
    closes the leaves with the facts of [prog]. *)
Ltac prog :=
  intros; cbv zeta;
  lazymatch goal with
  | |- respects (bind _ _) => apply respects_bind; prog
  | |- respects (while_true _ _) => apply respects_while; prog
  | |- respects (if ?b then _ else _) => destruct b; prog
  | |- respects (match ?x with _ => _ end) => destruct x; prog
  | |- total _ (bind _ _) => apply total_bind; prog
  | |- total ?n (while_true ?n _) => apply total_while; prog
  | |- total _ (if ?b then _ else _) => destruct b; prog
  | |- total _ (match ?x with _ => _ end) => destruct x; prog
  | |- consuming (while_true _ _) => apply consuming_while; prog
  | |- consuming (bind (print _) _) => apply consuming_bind_r; prog
  | |- consuming (bind print_menu _) => apply consuming_bind_r; prog
  | |- consuming (bind _ _) => apply consuming_bind_l; prog
  | _ => unfold print, print_table; auto with prog
  end.

Lemma respects_input_non_empty_string n p : respects (input_non_empty_string n p).
Proof. unfold input_non_empty_string. prog. Qed.

Lemma respects_input_integer n p : respects (input_integer n p).
Proof. unfold input_integer. prog. Qed.

Lemma respects_input_integer_or_none n p : respects (input_integer_or_none n p).
Proof. unfold input_integer_or_none. prog. Qed.

Lemma consuming_input_non_empty_string n p : consuming (input_non_empty_string n p).
Proof. unfold input_non_empty_string. prog. Qed.

Lemma consuming_input_integer n p : consuming (input_integer n p).
Proof. unfold input_integer. prog. Qed.

Lemma consuming_input_integer_or_none n p : consuming (input_integer_or_none n p).
Proof. unfold input_integer_or_none. prog. Qed.

Lemma total_input_non_empty_string n p : total n (input_non_empty_string n p).
Proof. unfold input_non_empty_string. prog. Qed.

Lemma total_input_integer n p : total n (input_integer n p).
Proof. unfold input_integer. prog. Qed.

Lemma total_input_integer_or_none n p : total n (input_integer_or_none n p).
Proof. unfold input_integer_or_none. prog. Qed.

#[local] Hint Resolve
  respects_input_non_empty_string respects_input_integer respects_input_integer_or_none
  consuming_input_non_empty_string consuming_input_integer consuming_input_integer_or_none
  total_input_non_empty_string total_input_integer total_input_integer_or_none : prog.

Lemma respects_add_books_body n : respects (add_books_body n).
Proof. unfold add_books_body. prog. Qed.

Lemma consuming_add_books_body n : consuming (add_books_body n).
Proof. unfold add_books_body. prog. Qed.

Lemma total_add_books_body n : total n (add_books_body n).
Proof. unfold add_books_body. prog. Qed.

#[local] Hint Resolve respects_add_books_body consuming_add_books_body total_add_books_body : prog.

Lemma respects_add_books n : respects (add_books n).
Proof. unfold add_books. prog. Qed.

Lemma total_add_books n : total n (add_books n).
Proof. unfold add_books. prog. Qed.

Lemma respects_query_for_books n : respects (query_for_books n).
Proof. unfold query_for_books. prog. Qed.

Lemma total_query_for_books n : total n (query_for_books n).
Proof. unfold query_for_books. prog. Qed.

Lemma respects_select_book_body n books : respects (select_book_body n books).
Proof. unfold select_book_body. prog. Qed.

Lemma consuming_select_book_body n books : consuming (select_book_body n books).
Proof. unfold select_book_body. prog. Qed.

Lemma total_select_book_body n books : total n (select_book_body n books).
Proof. unfold select_book_body. prog. Qed.

#[local] Hint Resolve respects_select_book_body consuming_select_book_body
  total_select_book_body : prog.

Lemma respects_select_book_from_list n books : respects (select_book_from_list n books).
Proof. unfold select_book_from_list. prog. Qed.

Lemma total_select_book_from_list n books : total n (select_book_from_list n books).
Proof. unfold select_book_from_list. prog. Qed.

#[local] Hint Resolve respects_add_books total_add_books
  respects_query_for_books total_query_for_books
  respects_select_book_from_list total_select_book_from_list : prog.

Lemma respects_update_book n : respects (update_book n).
Proof. unfold update_book. prog. Qed.

Lemma total_update_book n : total n (update_book n).
Proof. unfold update_book. prog. Qed.

Lemma respects_delete_book n : respects (delete_book n).
Proof. unfold delete_book. prog. Qed.

Lemma total_delete_book n : total n (delete_book n).
Proof. unfold delete_book. prog. Qed.

Lemma respects_search_books : respects search_books.
Proof. unfold search_books. prog. Qed.

Lemma total_search_books n : total n search_books.
Proof. unfold search_books. prog. Qed.

Lemma respects_print_menu : respects print_menu.
Proof. unfold print_menu. prog. Qed.

Lemma total_print_menu n : total n print_menu.
Proof. unfold print_menu. prog. Qed.

#[local] Hint Resolve respects_update_book total_update_book
  respects_delete_book total_delete_book respects_search_books total_search_books
  respects_print_menu total_print_menu : prog.

Lemma respects_main_menu_body n : respects (main_menu_body n).
Proof. unfold main_menu_body. prog. Qed.

Lemma consuming_main_menu_body n : consuming (main_menu_body n).
Proof. unfold main_menu_body. prog. Qed.

Lemma total_main_menu_body n : total n (main_menu_body n).
Proof. unfold main_menu_body. prog. Qed.

#[local] Hint Resolve respects_main_menu_body consuming_main_menu_body
  total_main_menu_body : prog.

Lemma respects_main_menu n : respects (main_menu n).
Proof. unfold main_menu. prog. Qed.

(** With a budget above the number of pending lines the menu loop, and with
    it every loop below it, ends by itself: in a return or in an exception. *)
Lemma main_menu_total n : total n (main_menu n).
Proof. unfold main_menu. prog. Qed.

Lemma run_total (file : option Sqlite.database) (lines : list string) (o : outcome unit) :
  run file lines = Some o -> forall w, o <> OutOfFuel w.
Proof.
  unfold run. destruct (initialise_database file) as [d|]; [|discriminate].
  intros [= <-]. apply main_menu_total. simpl. lia.
Qed.

(** ** What the moves preserve *)

Lemma step_quantities_fit (w w' : world) :
  step w w' -> quantities_fit (db w) -> quantities_fit (db w').
Proof.
  unfold quantities_fit. intros H. destruct H as [| | ? ? d t a q d' Hq Hi | ? ? d t a q i Hq Hi | ? ? d i];
    simpl; intros Hd; try assumption.
  - unfold Sqlite.insert_auto in Hi. destruct (Sqlite.next_id d); [|discriminate].
    injection Hi as <-. simpl. apply Forall_app. split; [assumption|].
    constructor; [exact Hq | constructor].
  - apply Forall_map. apply Forall_impl with (2 := Hd). intros r Hr.
    destruct (Sqlite.row_id r =? i); [exact Hq | exact Hr].
  - apply Forall_forall. intros r Hr. apply filter_In in Hr.
    rewrite Forall_forall in Hd. now apply Hd.
Qed.

Lemma reaches_quantities_fit (w w' : world) :
  reaches w w' -> quantities_fit (db w) -> quantities_fit (db w').
Proof.
  intros H. induction H as [w w' H| |w1 w2 w3 _ IH1 _ IH2]; auto.
  now apply step_quantities_fit.
Qed.

Lemma largest_id_nonneg (rs : list Sqlite.row) : 0 <= Sqlite.largest_id rs.
Proof. induction rs as [|r rs IH]; simpl; lia. Qed.

Lemma next_id_positive (d : Sqlite.database) (i : Z) :
  Sqlite.next_id d = Some i -> 1 <= i.
Proof.
  unfold Sqlite.next_id. pose proof (largest_id_nonneg (Sqlite.rows d)).
  destruct (_ <? _); [|discriminate]. intros [= <-]. lia.
Qed.

Lemma fits_int64_spec (v : Z) :
  Sqlite.fits_int64 v = true <-> Sqlite.min_int64 <= v <= Sqlite.max_int64.
Proof. unfold Sqlite.fits_int64. rewrite andb_true_iff, !Z.leb_le. reflexivity. Qed.

Lemma step_well_typed (w w' : world) :
  step w w' -> well_typed (db w) -> well_typed (db w').
Proof.
  unfold well_typed. intros H. destruct H as [| | ? ? d t a q d' Hq Hi | ? ? d t a q i Hq Hi | ? ? d i];
    simpl; intros Hd; try assumption.
  - unfold Sqlite.insert_auto in Hi. destruct (Sqlite.next_id d) as [i|] eqn:E; [|discriminate].
    injection Hi as <-. simpl. apply Forall_app. split; [assumption|].
    constructor; [|constructor]. split; [|exact Hq]. simpl.
    apply fits_int64_spec. pose proof (next_id_positive _ _ E).
    apply next_id_above in E. unfold Sqlite.min_int64. lia.
  - apply Forall_map. apply Forall_impl with (2 := Hd). intros r Hr.
    destruct (Sqlite.row_id r =? i); [|exact Hr]. simpl. split; [apply Hr | exact Hq].
  - apply Forall_forall. intros r Hr. apply filter_In in Hr.
    rewrite Forall_forall in Hd. now apply Hd.
Qed.

Lemma reaches_well_typed (w w' : world) :
  reaches w w' -> well_typed (db w) -> well_typed (db w').
Proof.
  intros H. induction H as [w w' H| |w1 w2 w3 _ IH1 _ IH2]; auto.
  now apply step_well_typed.
Qed.


Lemma seeded_quantities_fit : quantities_fit seeded.
Proof. repeat constructor. Qed.

(** C7, as amended.  Every quantity in the table is an integer of the 64-bit
    signed range, negative values included; whatever is typed, no operation
    reachable from the menu takes a table out of that range, on the first run
    (seeded table) as on later ones. *)
Theorem quantities_stay_64_bit (file : option Sqlite.database) (lines : list string)
  (o : outcome unit) :
  (forall d, file = Some d -> quantities_fit d) ->
  run file lines = Some o ->
  quantities_fit (db (world_of o)).
Proof.
  intros Hfile. unfold run.
  destruct (initialise_database file) as [d|] eqn:E; [|discriminate].
  intros [= <-].
  apply (reaches_quantities_fit (mkWorld lines [] d)); [apply respects_main_menu|].
  simpl. destruct file as [d0|].
  - injection E as <-. now apply Hfile.
  - injection E as <-. repeat constructor.
Qed.

Lemma quantities_stay_64_bit_witness :
  quantities_fit
    (db (world_of (main_menu 6 (mkWorld ["1"; "Dune"; "Frank Herbert"; "-5"; "n"] [] seeded)))).
Proof.
  apply (quantities_stay_64_bit (Some seeded) ["1"; "Dune"; "Frank Herbert"; "-5"; "n"]).
  - intros d H. injection H as <-. repeat constructor.
  - reflexivity.
Defined.

(** C7 as stated fails: the add workflow takes the quantity -5 and stores it. *)
Lemma add_books_stores_negative_quantity :
  exists w',
    add_books 1 (mkWorld ["Dune"; "Frank Herbert"; "-5"; "n"] [] seeded) = Ret tt w'
    /\ fetch 3006 (db w') = Some (mkBook 3006 "Dune" "Frank Herbert" (-5))
    /\ quantity (mkBook 3006 "Dune" "Frank Herbert" (-5)) < 0.
Proof. eexists. split; [vm_compute; reflexivity|]. split; reflexivity. Qed.

(** ** The workflows on a prepared terminal *)

Lemma bind_Ret {A B : Type} (m : M A) (k : A -> M B) (w : world) (a : A) (w' : world) :
  m w = Ret a w' -> bind m k w = k a w'.
Proof. intros H. unfold bind. now rewrite H. Qed.

Lemma execute_insert_eq (t a : string) (q : Z) (inp : list string) (out : list output)
  (d d' : Sqlite.database) :
  Sqlite.fits_int64 q = true ->
  Sqlite.insert_auto t a q d = Some d' ->
  execute_insert t a q (mkWorld inp out d) = Ret tt (mkWorld inp out d').
Proof.
  intros Hq Hd. unfold execute_insert, bind, bind_int, execute.
  rewrite Hq. unfold ret. simpl db. now rewrite Hd.
Qed.


Lemma lower_not_y (choice : string) :
  Py.lower choice <> "y" -> negb (String.eqb (Py.lower choice) "y") = true.
Proof. intros H. apply negb_true_iff. now apply String.eqb_neq. Qed.

Lemma add_books_once (n : nat) (t a qline again : string) (q : Z)
  (rest : list string) (out : list output) (d d' : Sqlite.database) :
  t <> "" -> a <> "" ->
  Py.int qline = Some q ->
  Sqlite.fits_int64 q = true ->
  Sqlite.insert_auto t a q d = Some d' ->
  Py.lower again <> "y" ->
  exists out',
    add_books (S n) (mkWorld (t :: a :: qline :: again :: rest) out d)
    = Ret tt (mkWorld rest out' d').
Proof.
  intros Ht Ha Hq Hfit Hins Hagain. eexists.
  unfold add_books. rewrite !bind_print, while_true_S.
  unfold add_books_body. rewrite bind_print.
  rewrite (bind_Ret _ _ _ _ _ (input_non_empty_string_accept _ _ _ _ _ _ Ht)).
  rewrite (bind_Ret _ _ _ _ _ (input_non_empty_string_accept _ _ _ _ _ _ Ha)).
  rewrite (bind_Ret _ _ _ _ _ (input_integer_accept _ _ _ _ _ _ _ Hq)).
  rewrite (bind_Ret _ _ _ _ _ (execute_insert_eq _ _ _ _ _ _ _ Hfit Hins)).
  rewrite !bind_print.
  rewrite (bind_Ret _ _ _ _ _ (input_cons _ _ _ _ _)).
  rewrite (lower_not_y _ Hagain). reflexivity.
Qed.

(** C1, as amended.  For every valid triple (title and author non-empty and
    free of NUL characters, a quantity of the 64-bit range): on a table whose
    id counter is not exhausted, one pass of the add workflow followed by
    [find_matching_books] on a substring [s] of the title or of the author,
    wrapped in wildcards as the workflows do and within the engine's pattern
    limit, returns a list that holds a record with exactly the entered title,
    author and quantity; its id is newly assigned, carried by no record that
    was in the table, and the records that were there are as before.  On a
    table whose id counter is exhausted the add raises [OperationalError]
    after reading the three lines and stores nothing. *)
Theorem add_then_find (n : nat) (t a qline again s : string) (q : Z)
  (rest : list string) (out : list output) (d : Sqlite.database) :
  t <> "" -> a <> "" ->
  nul_free t = true -> nul_free a = true ->
  Py.int qline = Some q ->
  Sqlite.fits_int64 q = true ->
  (Sqlite.next_id d <> None ->
   Py.lower again <> "y" ->
   pattern_fits s = true ->
   occurs_in s t \/ occurs_in s a ->
   exists i w',
     add_books (S n) (mkWorld (t :: a :: qline :: again :: rest) out d) = Ret tt w'
     /\ stdin w' = rest
     /\ ~ In i (ids d)
     /\ (exists books,
            find_matching_books (wrap s) w' = Ret books w'
            /\ In (mkBook i t a q) books)
     /\ fetch i (db w') = Some (mkBook i t a q)
     /\ (forall j, j <> i -> fetch j (db w') = fetch j d))
  /\ (Sqlite.next_id d = None ->
      exists out',
        add_books (S n) (mkWorld (t :: a :: qline :: again :: rest) out d)
        = Raise OperationalError (mkWorld (again :: rest) out' d)).
Proof.
  intros Ht Ha _ _ Hq Hfit. split.
  - intros Hnext Hagain _ Hs.
    destruct (Sqlite.next_id d) as [i|] eqn:Hi; [clear Hnext | congruence].
    assert (Hins : Sqlite.insert_auto t a q d
                   = Some (Sqlite.mkDb (Sqlite.rows d ++ [(i, t, a, q)]) i))
      by (unfold Sqlite.insert_auto; now rewrite Hi).
    destruct (add_books_once n t a qline again q rest out d _ Ht Ha Hq Hfit Hins Hagain)
      as [out' Hrun].
    exists i. eexists. split; [exact Hrun|]. split; [reflexivity|].
    split; [now apply next_id_fresh|]. split.
    + eexists. split; [apply find_matching_books_eq|].
      apply in_map_iff. exists (i, t, a, q). split; [reflexivity|].
      unfold Sqlite.select_like. apply filter_In. simpl. split.
      * apply in_or_app. right. now left.
      * apply orb_true_iff. destruct Hs as [Hs | Hs]; [left | right];
          now apply like_wrap_occurs.
    + simpl db. exact (fetch_insert_auto t a q d _ i Hi Hins).
  - intros Hnone. eexists.
    unfold add_books. rewrite !bind_print, while_true_S.
    unfold add_books_body. rewrite bind_print.
    rewrite (bind_Ret _ _ _ _ _ (input_non_empty_string_accept _ _ _ _ _ _ Ht)).
    rewrite (bind_Ret _ _ _ _ _ (input_non_empty_string_accept _ _ _ _ _ _ Ha)).
    rewrite (bind_Ret _ _ _ _ _ (input_integer_accept _ _ _ _ _ _ _ Hq)).
    unfold execute_insert, bind, bind_int, execute. rewrite Hfit. unfold ret.
    cbn [db stdin stdout]. unfold Sqlite.insert_auto. rewrite Hnone. reflexivity.
Qed.

Lemma add_then_find_witness :
  exists i w',
    add_books 1 (mkWorld ["Dune"; "Frank Herbert"; "10"; "n"] [] seeded) = Ret tt w'
    /\ stdin w' = []
    /\ ~ In i (ids seeded)
    /\ (exists books,
           find_matching_books (wrap "Herb") w' = Ret books w'
           /\ In (mkBook i "Dune" "Frank Herbert" 10) books)
    /\ fetch i (db w') = Some (mkBook i "Dune" "Frank Herbert" 10)
    /\ (forall j, j <> i -> fetch j (db w') = fetch j seeded).
Proof.
  apply (proj1 (add_then_find 0 "Dune" "Frank Herbert" "10" "n" "Herb" 10 [] [] seeded
                  ltac:(discriminate) ltac:(discriminate) eq_refl eq_refl eq_refl eq_refl));
    try discriminate; try reflexivity.
  right. exists "Frank ", "ert". reflexivity.
Defined.

(** C1 as stated fails: on a table whose id counter stands at the largest
    64-bit value the add of a valid triple raises [OperationalError]; nothing
    is stored and the search finds nothing. *)
Lemma add_books_refused_when_counter_exhausted :
  exists w',
    add_books 1
      (mkWorld ["Dune"; "Frank Herbert"; "10"; "n"] []
         (Sqlite.mkDb (Sqlite.rows seeded) Sqlite.max_int64))
    = Raise OperationalError w'
    /\ db w' = Sqlite.mkDb (Sqlite.rows seeded) Sqlite.max_int64
    /\ find_matching_books (wrap "Dune") w' = Ret [] w'.
Proof. eexists. split; [vm_compute; reflexivity|]. split; reflexivity. Qed.

Lemma query_for_books_found (n : nat) (q : string) (rest : list string)
  (out : list output) (d : Sqlite.database) :
  Sqlite.select_like (wrap q) (wrap q) d <> [] ->
  query_for_books (S n) (mkWorld (q :: rest) out d)
  = Ret (map book_of_row (Sqlite.select_like (wrap q) (wrap q) d))
        (mkWorld rest (out ++ [Prompt "Query (title or author): "]) d).
Proof.
  intros H. unfold query_for_books. rewrite while_true_S.
  rewrite (bind_Ret _ _ _ _ _ (input_cons _ _ _ _ _)).
  rewrite (bind_Ret _ _ _ _ _ (find_matching_books_eq _ _)). cbn [db].
  destruct (Sqlite.select_like (wrap q) (wrap q) d); [congruence | reflexivity].
Qed.

Lemma query_for_books_declined (n : nat) (q choice : string) (rest : list string)
  (out : list output) (d : Sqlite.database) :
  Sqlite.select_like (wrap q) (wrap q) d = [] ->
  Py.lower choice <> "y" ->
  query_for_books (S n) (mkWorld (q :: choice :: rest) out d)
  = Ret [] (mkWorld rest (out ++ [Prompt "Query (title or author): ";
                                  Prompt "No matches, try again? Y/N "]) d).
Proof.
  intros H Hc. unfold query_for_books. rewrite while_true_S.
  rewrite (bind_Ret _ _ _ _ _ (input_cons _ _ _ _ _)).
  rewrite (bind_Ret _ _ _ _ _ (find_matching_books_eq _ _)). cbn [db].
  rewrite H. cbn [map List.length Nat.ltb Nat.leb].
  rewrite (bind_Ret _ _ _ _ _ (input_cons _ _ _ _ _)).
  rewrite (lower_not_y _ Hc), <- app_assoc. reflexivity.
Qed.

Lemma select_book_from_list_accept (n : nat) (books : list Book) (line : string) (k : Z)
  (b : Book) (rest : list string) (out : list output) (d : Sqlite.database) :
  Py.int line = Some k -> 1 <= k ->
  nth_error books (Z.to_nat (k - 1)) = Some b ->
  select_book_from_list (S n) books (mkWorld (line :: rest) out d)
  = Ret b (mkWorld rest (out ++ select_header books ++ [Prompt select_prompt]) d).
Proof.
  intros Hk H1 Hb.
  unfold select_book_from_list, bind, print_table, print, write. cbn [stdin stdout db].
  rewrite (select_loop_trace n books line k b rest d Hk H1 Hb [])
    by (simpl; auto; lia).
  unfold select_header. simpl flat_map. now rewrite <- !app_assoc.
Qed.






(** ** Searching *)

Lemma select_like_literal (q : string) (d : Sqlite.database) :
  literal q = true ->
  map book_of_row (Sqlite.select_like (wrap q) (wrap q) d) = holding q d.
Proof.
  intros Hq. unfold holding, Sqlite.select_like. f_equal.
  apply filter_ext. intros r. now rewrite !like_wrap_literal.
Qed.

Lemma search_books_eq (q : string) (rest : list string) (out : list output)
  (d : Sqlite.database) :
  search_books (mkWorld (q :: rest) out d)
  = Ret tt (mkWorld rest
              (out ++ search_report
                        (map book_of_row (Sqlite.select_like (wrap q) (wrap q) d))) d).
Proof.
  unfold search_books. rewrite bind_print.
  rewrite (bind_Ret _ _ _ _ _ (input_cons _ _ _ _ _)). rewrite bind_print.
  rewrite (bind_Ret _ _ _ _ _ (find_matching_books_eq _ _)). cbn [db].
  rewrite !bind_print. unfold search_report.
  destruct (map book_of_row _) as [|b bs]; cbn [List.length Nat.ltb Nat.leb];
    unfold ret, bind, print_table, print, write; cbn [stdin stdout db];
    rewrite <- ?app_assoc; reflexivity.
Qed.

(** C6, as amended.  For every query without the LIKE metacharacters [%] and
    [_] and without a NUL character, whose wrapped pattern is within the
    engine's limit, on a table whose titles and authors hold no NUL
    character, the search wraps the query in wildcards and finds exactly the
    records whose title or author holds the query as a substring, the case of
    ASCII letters ignored, in table order; the search workflow reports their
    number and their table. *)
Theorem search_finds_literal_substrings (q : string) (rest : list string)
  (out : list output) (d : Sqlite.database) :
  literal q = true ->
  nul_free q = true ->
  pattern_fits q = true ->
  plain_texts d ->
  find_matching_books (wrap q) (mkWorld rest out d) = Ret (holding q d) (mkWorld rest out d)
  /\ search_books (mkWorld (q :: rest) out d)
     = Ret tt (mkWorld rest (out ++ search_report (holding q d)) d).
Proof.
  intros Hq _ _ _. split.
  - rewrite find_matching_books_eq. simpl db. now rewrite select_like_literal.
  - rewrite search_books_eq. now rewrite select_like_literal.
Qed.

Lemma seeded_plain_texts : plain_texts seeded.
Proof. repeat constructor. Qed.

Lemma search_finds_literal_substrings_witness :
  find_matching_books (wrap "Potter") (mkWorld [] [] seeded)
  = Ret [mkBook 3002 "Harry Potter and the Philosopher's Stone" "J. K. Rowling" 40]
        (mkWorld [] [] seeded).
Proof.
  exact (proj1 (search_finds_literal_substrings "Potter" [] [] seeded
                  eq_refl eq_refl eq_refl seeded_plain_texts)).
Defined.

(** C6 as stated fails: the query [_] lists all five seed records although no
    seed title or author holds an underscore. *)
Lemma search_underscore_lists_every_seed :
  search_books (mkWorld ["_"] [] seeded)
  = Ret tt (mkWorld [] (search_report (map book_of_row (Sqlite.rows seeded))) seeded)
  /\ List.length (Sqlite.rows seeded) = 5%nat
  /\ holding "_" seeded = [].
Proof. repeat split. Qed.

(** ** Selecting from an empty list *)

Lemma select_empty_loop (fuel k : nat) (w : world) :
  match while_true k (select_book_body fuel []) w with
  | Ret _ _ => False
  | Raise e w' => e = EOFError /\ stdin w' = [] /\ db w' = db w
  | OutOfFuel w' =>
      (k <= List.length (stdin w) \/ fuel <= List.length (stdin w))%nat /\ db w' = db w
  end.
Proof.
  revert w. induction k as [|k IH]; intros w.
  - simpl. split; [left; lia | reflexivity].
  - rewrite while_true_S. unfold select_book_body at 1, bind at 1.
    pose proof (input_integer_outcome fuel "Enter the number of the book to update: " w) as Hi.
    destruct (input_integer fuel _ w) as [v [inp out d]|e w1|w1].
    + cbv zeta.
      assert (E : (v - 1 <? 0) || (v - 1 >=? Z.of_nat (@List.length Book [])) = true).
      { apply orb_true_iff. destruct (Z.ltb_spec (v - 1) 0); [now left | right].
        apply Z.geb_le. simpl. lia. }
      rewrite E, bind_print. unfold ret.
      match goal with |- context [while_true k _ ?w'] =>
        specialize (IH w'); destruct (while_true k _ w') end;
        simpl in *; intuition (try lia; congruence).
    + exact Hi.
    + split; [right|]; apply Hi.
Qed.

Lemma select_empty_outcome (fuel : nat) (w : world) :
  match select_book_from_list fuel [] w with
  | Ret _ _ => False
  | Raise e w' => e = EOFError /\ stdin w' = [] /\ db w' = db w
  | OutOfFuel w' => (fuel <= List.length (stdin w))%nat /\ db w' = db w
  end.
Proof.
  destruct w as [inp out d].
  unfold select_book_from_list, bind at 1 2, print_table, print, write. cbn [stdin stdout db].
  match goal with |- context [while_true fuel _ ?w'] =>
    pose proof (select_empty_loop fuel fuel w') as H; destruct (while_true fuel _ w') end;
    simpl in *; intuition lia.
Qed.

(** C9, as amended.  Selecting from an empty list never returns.  Whatever
    the budget and whatever is typed, [select_book_from_list] on the empty
    list does not come back with a book; every integer line is refused with
    the out-of-range message and the prompt is shown again, for as long as
    lines arrive; no [IndexError] occurs and the table is not touched.  On a
    terminal that delivers its lines and then ends, the loop ends when the
    input does, in the [EOFError] of [input], which a sufficient budget
    reaches.  The update and delete workflows get there when the query has
    no match and the retry is declined, and then do not return either. *)
Theorem select_from_empty_list_never_returns (fuel : nat) (w : world) :
  (forall b w', select_book_from_list fuel [] w <> Ret b w')
  /\ (forall e w',
         select_book_from_list fuel [] w = Raise e w' ->
         e = EOFError /\ stdin w' = [] /\ db w' = db w)
  /\ ((List.length (stdin w) < fuel)%nat ->
      exists w',
        select_book_from_list fuel [] w = Raise EOFError w'
        /\ stdin w' = [] /\ db w' = db w)
  /\ (forall n line k rest out d,
         Py.int line = Some k ->
         select_book_body (S n) [] (mkWorld (line :: rest) out d)
         = Ret None (mkWorld rest (out ++ refusal line) d))
  /\ (forall n q choice rest out d,
         Sqlite.select_like (wrap q) (wrap q) d = [] ->
         Py.lower choice <> "y" ->
         (forall w', update_book (S n) (mkWorld (q :: choice :: rest) out d) <> Ret tt w')
         /\ (forall w', delete_book (S n) (mkWorld (q :: choice :: rest) out d) <> Ret tt w')).
Proof.
  pose proof (select_empty_outcome fuel w) as H.
  split; [|split; [|split; [|split]]].
  - intros b w' E. now rewrite E in H.
  - intros e w' E. now rewrite E in H.
  - intros Hf. destruct (select_book_from_list fuel [] w) as [b w'|e w'|w'].
    + contradiction.
    + destruct H as (-> & H1 & H2). now exists w'.
    + lia.
  - intros n line k rest out d Hk. apply select_book_body_refuse.
    exists k. split; [exact Hk|]. simpl. lia.
  - intros n q choice rest out d Hq Hc. split; intros w' E.
    + unfold update_book in E. rewrite !bind_print in E.
      rewrite (bind_Ret _ _ _ _ _ (query_for_books_declined _ _ _ _ _ _ Hq Hc)) in E.
      unfold bind at 1 in E.
      match type of E with context [select_book_from_list ?f [] ?w0] =>
        pose proof (select_empty_outcome f w0) as H0;
        destruct (select_book_from_list f [] w0) end;
        [contradiction | discriminate | discriminate].
    + unfold delete_book in E. rewrite !bind_print in E.
      rewrite (bind_Ret _ _ _ _ _ (query_for_books_declined _ _ _ _ _ _ Hq Hc)) in E.
      unfold bind at 1 in E.
      match type of E with context [select_book_from_list ?f [] ?w0] =>
        pose proof (select_empty_outcome f w0) as H0;
        destruct (select_book_from_list f [] w0) end;
        [contradiction | discriminate | discriminate].
Qed.

Lemma select_from_empty_list_never_returns_witness :
  exists w',
    select_book_from_list 4 [] (mkWorld ["1"; "0"; "x"] [] seeded) = Raise EOFError w'
    /\ stdin w' = [] /\ db w' = seeded.
Proof.
  apply (proj1 (proj2 (proj2
           (select_from_empty_list_never_returns 4 (mkWorld ["1"; "0"; "x"] [] seeded))))).
  simpl. lia.
Defined.

(** C9 as stated fails: the prompt does not repeat forever and an exception
    does occur; once the two typed lines are used up the loop ends in
    [EOFError]. *)
Lemma select_from_empty_list_ends_at_end_of_input :
  select_book_from_list 3 [] (mkWorld ["1"; "2"] [] seeded)
  = Raise EOFError
      (mkWorld []
         (select_header []
            ++ refusal "1" ++ refusal "2" ++ [Prompt select_prompt])
         seeded).
Proof. reflexivity. Qed.

(** ** The menu loop *)

Lemma print_menu_eq (inp : list string) (out : list output) (d : Sqlite.database) :
  print_menu (mkWorld inp out d) = Ret tt (mkWorld inp (out ++ menu_lines) d).
Proof.
  unfold print_menu. rewrite !bind_print. unfold print, write. cbn [stdin stdout db].
  now rewrite <- !app_assoc.
Qed.

Lemma main_menu_body_eq (n : nat) (line : string) (rest : list string)
  (out : list output) (d : Sqlite.database) :
  main_menu_body n (mkWorld (line :: rest) out d)
  = (if String.eqb (Py.lower line) "1" then add_books n ;; ret None
     else if String.eqb (Py.lower line) "2" then update_book n ;; ret None
     else if String.eqb (Py.lower line) "3" then delete_book n ;; ret None
     else if String.eqb (Py.lower line) "4" then search_books ;; ret None
     else if String.eqb (Py.lower line) "0" then ret (Some tt)
     else print "Invalid choice, please try again." ;; ret None)
      (mkWorld rest (out ++ menu_lines ++ [Prompt "> "]) d).
Proof.
  unfold main_menu_body.
  rewrite (bind_Ret _ _ _ _ _ (print_menu_eq _ _ _)).
  rewrite (bind_Ret _ _ _ _ _ (input_cons _ _ _ _ _)).
  cbv zeta. now rewrite <- app_assoc.
Qed.

Lemma while_true_bind {A : Type} (k : nat) (m : M A) (body : M (option unit)) (w w0 : world) :
  body w = (m ;; ret None) w0 ->
  while_true (S k) body w = (m ;; while_true k body) w0.
Proof.
  intros H. rewrite while_true_S, H. unfold bind, ret. now destruct (m w0).
Qed.

Lemma main_menu_body_returns (n : nat) (w w' : world) :
  main_menu_body n w = Ret (Some tt) w' -> stdin w = "0" :: stdin w'.
Proof.
  destruct w as [[|line rest] out d].
  - unfold main_menu_body. rewrite (bind_Ret _ _ _ _ _ (print_menu_eq _ _ _)).
    discriminate.
  - rewrite main_menu_body_eq.
    repeat match goal with
           | |- context [String.eqb (Py.lower line) ?c] =>
               let E := fresh "E" in destruct (String.eqb (Py.lower line) c) eqn:E
           end;
      try (unfold bind, ret;
           match goal with |- context [match ?m ?w0 with _ => _ end] => destruct (m w0) end;
           discriminate).
    intros [= <-]. apply String.eqb_eq in E3. apply lower_digit in E3; simpl; auto.
    now subst line.
Qed.

Lemma menu_loop_returns (n k : nat) (w w' : world) :
  while_true k (main_menu_body n) w = Ret tt w' ->
  exists pre, stdin w = (pre ++ "0" :: stdin w')%list.
Proof.
  revert w. induction k as [|k IH]; intros w; [discriminate|].
  rewrite while_true_S.
  pose proof (respects_main_menu_body n w) as Hr.
  destruct (main_menu_body n w) as [[[]|] w1|e w1|w1] eqn:E; try discriminate.
  - intros [= <-]. exists []. now apply main_menu_body_returns with n.
  - intros H. apply IH in H. destruct H as [pre2 H2].
    apply reaches_suffix in Hr. destruct Hr as [pre1 H1]. simpl in H1.
    exists (pre1 ++ pre2)%list. now rewrite H1, H2, app_assoc.
Qed.

(** C8.  The menu loop prints the menu, reads one line, lower-cases it and
    dispatches on an exact match: "1" runs the add workflow, "2" update, "3"
    delete, "4" search, each followed by the next round of the loop; "0"
    returns; every other line gets the error message and the next round,
    which prints the menu again.  Lower-casing changes none of these tests,
    and the loop returns only after reading a line that is exactly "0". *)
Theorem main_menu_dispatch (n k : nat) (line : string) (rest : list string)
  (out : list output) (d : Sqlite.database) :
  let shown := mkWorld rest (out ++ menu_lines ++ [Prompt "> "]) d in
  let round := while_true (S k) (main_menu_body n) (mkWorld (line :: rest) out d) in
  let next := while_true k (main_menu_body n) in
  (line = "1" -> round = (add_books n ;; next) shown)
  /\ (line = "2" -> round = (update_book n ;; next) shown)
  /\ (line = "3" -> round = (delete_book n ;; next) shown)
  /\ (line = "4" -> round = (search_books ;; next) shown)
  /\ (line = "0" -> round = Ret tt shown)
  /\ (~ In line ["0"; "1"; "2"; "3"; "4"] ->
      round = next (mkWorld rest
                      (out ++ menu_lines
                           ++ [Prompt "> "; Line "Invalid choice, please try again."]) d))
  /\ (forall c, In c ["0"; "1"; "2"; "3"; "4"] -> (Py.lower line = c <-> line = c))
  /\ (forall w w', main_menu n w = Ret tt w' ->
                   exists pre, stdin w = (pre ++ "0" :: stdin w')%list).
Proof.
  intros shown round next. subst round next.
  assert (Hlow : forall c, In c ["0"; "1"; "2"; "3"; "4"] -> (Py.lower line = c <-> line = c)).
  { intros c Hc. simpl in Hc. decompose [or] Hc; try contradiction; subst c;
      (split; [intros E; apply lower_digit in E; [exact E | simpl; auto 6]
              | intros ->; reflexivity]). }
  repeat split.
  - intros ->. apply while_true_bind. now rewrite main_menu_body_eq.
  - intros ->. apply while_true_bind. now rewrite main_menu_body_eq.
  - intros ->. apply while_true_bind. now rewrite main_menu_body_eq.
  - intros ->. apply while_true_bind. now rewrite main_menu_body_eq.
  - intros ->. rewrite while_true_S. now rewrite main_menu_body_eq.
  - intros Hn. rewrite while_true_S, main_menu_body_eq.
    assert (Hf : forall c, In c ["0"; "1"; "2"; "3"; "4"] ->
                           String.eqb (Py.lower line) c = false).
    { intros c Hc. apply String.eqb_neq. intros E. apply (Hlow c Hc) in E.
      apply Hn. now subst c. }
    rewrite !Hf by (simpl; auto 6).
    rewrite bind_print. unfold ret. subst shown. now rewrite <- !app_assoc.
  - apply (Hlow c H).
  - apply (Hlow c H).
  - intros w w'. apply menu_loop_returns.
Qed.

Lemma main_menu_dispatch_witness :
  exists pre,
    ["9"; "0"; "4"]
    = (pre ++ "0" :: stdin (mkWorld ["4"]
                             (menu_lines ++ [Prompt "> "; Line "Invalid choice, please try again."]
                                ++ menu_lines ++ [Prompt "> "])
                             seeded))%list.
Proof.
  apply (proj2 (proj2 (proj2 (proj2 (proj2 (proj2 (proj2
           (main_menu_dispatch 3 3 "9" [] [] seeded))))))) 
           (mkWorld ["9"; "0"; "4"] [] seeded)).
  reflexivity.
Defined.

Lemma select_book_accepts_exactly_in_range_witness :
  exists b,
    nth_error (map book_of_row (Sqlite.rows seeded)) (Z.to_nat (2 - 1)) = Some b
    /\ select_book_from_list 4 (map book_of_row (Sqlite.rows seeded))
         (mkWorld (["0"; "-3"; "6"] ++ "2" :: ["y"]) [] seeded)
       = Ret b (mkWorld ["y"]
                  ([] ++ select_header (map book_of_row (Sqlite.rows seeded))
                      ++ flat_map refusal ["0"; "-3"; "6"] ++ [Prompt select_prompt])
                  seeded).
Proof.
  apply (select_book_accepts_exactly_in_range 3 (map book_of_row (Sqlite.rows seeded))
           ["0"; "-3"; "6"] "2" 2 ["y"] [] seeded).
  - simpl. lia.
  - repeat constructor.
    + exists 0. split; [reflexivity | simpl; lia].
    + exists (-3). split; [reflexivity | simpl; lia].
    + exists 6. split; [reflexivity | simpl; lia].
  - simpl. lia.
  - reflexivity.
  - simpl. lia.
Defined.

(** * Further properties of the code *)

(** ** The input helpers on refused lines *)

(** A loop whose body refuses a line by consuming it, writing something and
    falling through skips a whole run of such lines. *)
Lemma while_true_skip {A : Type} (body : M (option A)) (refuse : string -> Prop)
  (emit : string -> list output) (rest : list string) (d : Sqlite.database) :
  (forall l inp out, refuse l ->
     body (mkWorld (l :: inp) out d) = Ret None (mkWorld inp (out ++ emit l) d)) ->
  forall (refused : list string) (fuel : nat) (out : list output),
    Forall refuse refused ->
    while_true (List.length refused + fuel) body (mkWorld (refused ++ rest) out d)
    = while_true fuel body (mkWorld rest (out ++ flat_map emit refused) d).
Proof.
  intros Hbody. induction refused as [|l refused IH]; intros fuel out Hr.
  - simpl. now rewrite app_nil_r.
  - inversion Hr as [|? ? Hl Hrest]; subst.
    change (List.length (l :: refused) + fuel)%nat
      with (S (List.length refused + fuel)).
    change ((l :: refused) ++ rest)%list with (l :: (refused ++ rest))%list.
    rewrite while_true_S, (Hbody _ _ _ Hl), IH by assumption.
    simpl flat_map. now rewrite <- app_assoc.
Qed.

Lemma split_fuel (k fuel : nat) :
  (k < fuel)%nat -> fuel = (k + S (fuel - S k))%nat.
Proof. lia. Qed.

(** X1.  [input_non_empty_string] asks again for every empty line, each time
    with the message "Expected a value, please try again.", and returns the
    first non-empty line as it was typed. *)
Theorem input_non_empty_string_skips_empty_lines (fuel k : nat) (prompt line : string)
  (rest : list string) (out : list output) (d : Sqlite.database) :
  line <> "" ->
  (k < fuel)%nat ->
  input_non_empty_string fuel prompt (mkWorld (repeat "" k ++ line :: rest) out d)
  = Ret line
      (mkWorld rest
         (out ++ flat_map (fun _ => empty_refusal prompt) (repeat "" k) ++ [Prompt prompt]) d).
Proof.
  intros Hline Hk. unfold input_non_empty_string.
  rewrite (split_fuel k fuel Hk). rewrite <- (repeat_length "" k) at 1.
  rewrite (while_true_skip _ (fun l => l = "") (fun _ => empty_refusal prompt)).
  - fold (input_non_empty_string (S (fuel - S k)) prompt).
    rewrite input_non_empty_string_accept by assumption. now rewrite <- app_assoc.
  - intros l inp o ->. rewrite (bind_Ret _ _ _ _ _ (input_cons _ _ _ _ _)).
    change (Py.non_empty "") with false. cbv iota.
    rewrite bind_print. unfold ret, empty_refusal.
    now rewrite <- app_assoc.
  - apply Forall_forall. intros l Hl. now apply repeat_spec in Hl.
Qed.

Lemma input_non_empty_string_skips_empty_lines_witness :
  input_non_empty_string 3 "Title: " (mkWorld (repeat "" 2 ++ "Dune" :: ["x"]) [] seeded)
  = Ret "Dune"
      (mkWorld ["x"]
         ([] ++ flat_map (fun _ => empty_refusal "Title: ") (repeat "" 2)
             ++ [Prompt "Title: "]) seeded).
Proof.
  apply (input_non_empty_string_skips_empty_lines 3 2 "Title: " "Dune" ["x"] [] seeded).
  - discriminate.
  - lia.
Defined.

(** X2.  [input_integer] never lets a parse failure out: every line that
    [int] does not accept is answered with "Expected an integer as input,
    please try again." and a new prompt, and the value of the first line that
    [int] accepts is returned. *)
Theorem input_integer_skips_non_integers (fuel : nat) (prompt : string)
  (refused : list string) (line : string) (v : Z)
  (rest : list string) (out : list output) (d : Sqlite.database) :
  Forall (fun l => Py.int l = None) refused ->
  Py.int line = Some v ->
  (List.length refused < fuel)%nat ->
  input_integer fuel prompt (mkWorld (refused ++ line :: rest) out d)
  = Ret v
      (mkWorld rest
         (out ++ flat_map (fun _ => integer_refusal prompt) refused ++ [Prompt prompt]) d).
Proof.
  intros Hr Hv Hk. unfold input_integer. rewrite (split_fuel _ fuel Hk).
  rewrite (while_true_skip _ (fun l => Py.int l = None) (fun _ => integer_refusal prompt)).
  - fold (input_integer (S (fuel - S (List.length refused))) prompt).
    rewrite (input_integer_accept _ _ _ _ _ _ _ Hv). now rewrite <- app_assoc.
  - intros l inp o Hl. rewrite (bind_Ret _ _ _ _ _ (input_cons _ _ _ _ _)).
    rewrite Hl, bind_print. unfold ret, integer_refusal. now rewrite <- app_assoc.
  - assumption.
Qed.

Lemma input_integer_skips_non_integers_witness :
  input_integer 3 "Number in stock: "
    (mkWorld (["ten"; "1.5"] ++ "-7" :: ["x"]) [] seeded)
  = Ret (-7)
      (mkWorld ["x"]
         ([] ++ flat_map (fun _ => integer_refusal "Number in stock: ") ["ten"; "1.5"]
             ++ [Prompt "Number in stock: "]) seeded).
Proof.
  apply (input_integer_skips_non_integers 3 "Number in stock: " ["ten"; "1.5"] "-7" (-7)
           ["x"] [] seeded).
  - repeat constructor.
  - reflexivity.
  - simpl. lia.
Defined.

(** X3.  [input_integer_or_none] treats the empty line as "no value" and never
    as a parse error: after any run of non-empty lines that [int] refuses,
    an empty line returns [None] and a line that [int] accepts returns its
    value. *)
Theorem input_integer_or_none_blank_means_none (fuel : nat) (prompt : string)
  (refused : list string) (line : string) (entered : option Z)
  (rest : list string) (out : list output) (d : Sqlite.database) :
  Forall not_an_integer refused ->
  (line = "" /\ entered = None)
  \/ (line <> "" /\ exists v, Py.int line = Some v /\ entered = Some v) ->
  (List.length refused < fuel)%nat ->
  input_integer_or_none fuel prompt (mkWorld (refused ++ line :: rest) out d)
  = Ret entered
      (mkWorld rest
         (out ++ flat_map (fun _ => integer_refusal prompt) refused ++ [Prompt prompt]) d).
Proof.
  intros Hr Hline Hk. unfold input_integer_or_none. rewrite (split_fuel _ fuel Hk).
  rewrite (while_true_skip _ not_an_integer (fun _ => integer_refusal prompt)).
  - fold (input_integer_or_none (S (fuel - S (List.length refused))) prompt).
    destruct Hline as [[-> ->] | (Hl & v & Hv & ->)].
    + rewrite input_integer_or_none_blank. now rewrite <- app_assoc.
    + rewrite (input_integer_or_none_accept _ _ _ _ _ _ _ Hl Hv). now rewrite <- app_assoc.
  - intros l inp o [Hl Hn]. rewrite (bind_Ret _ _ _ _ _ (input_cons _ _ _ _ _)).
    destruct (String.length l =? 0)%nat eqn:E; [now apply length_zero in E|].
    rewrite Hn, bind_print. unfold ret, integer_refusal. now rewrite <- app_assoc.
  - assumption.
Qed.

Lemma input_integer_or_none_blank_means_none_witness :
  input_integer_or_none 2 "Stock: " (mkWorld (["many"] ++ "" :: ["x"]) [] seeded)
  = Ret None
      (mkWorld ["x"]
         ([] ++ flat_map (fun _ => integer_refusal "Stock: ") ["many"] ++ [Prompt "Stock: "])
         seeded).
Proof.
  apply (input_integer_or_none_blank_means_none 2 "Stock: " ["many"] "" None ["x"] [] seeded).
  - repeat constructor. discriminate.
  - left. split; reflexivity.
  - simpl. lia.
Defined.

(** ** Asking for a query *)



(** ** More on matching *)

Lemma select_like_all (p : string) (d : Sqlite.database) :
  (forall s, Sqlite.like p s = true) -> Sqlite.select_like p p d = Sqlite.rows d.
Proof.
  intros H. unfold Sqlite.select_like.
  induction (Sqlite.rows d) as [|r rs IH]; [reflexivity|].
  simpl. rewrite H. simpl. now f_equal.
Qed.

Lemma like_wrap_empty (s : string) : Sqlite.like (wrap "") s = true.
Proof. unfold wrap. simpl append. apply like_percent_here, like_any. Qed.

(** X13.  An empty query matches everything: pressing Enter at the query
    prompt makes [find_matching_books] return every record of the table, so
    [search_books] lists the whole table and, on a table that is not empty,
    [query_for_books] returns all of it without asking again. *)
Theorem empty_query_lists_everything :
  (forall w,
      find_matching_books (wrap "") w = Ret (map book_of_row (Sqlite.rows (db w))) w)
  /\ (forall rest out d,
         search_books (mkWorld ("" :: rest) out d)
         = Ret tt (mkWorld rest
                     (out ++ search_report (map book_of_row (Sqlite.rows d))) d))
  /\ (forall n rest out d,
         Sqlite.rows d <> [] ->
         query_for_books (S n) (mkWorld ("" :: rest) out d)
         = Ret (map book_of_row (Sqlite.rows d))
             (mkWorld rest (out ++ [Prompt "Query (title or author): "]) d)).
Proof.
  split; [|split].
  - intros w. rewrite find_matching_books_eq.
    now rewrite (select_like_all _ _ like_wrap_empty).
  - intros rest out d. rewrite search_books_eq.
    now rewrite (select_like_all _ _ like_wrap_empty).
  - intros n rest out d Hd. rewrite query_for_books_found;
      now rewrite (select_like_all _ _ like_wrap_empty).
Qed.

Lemma empty_query_lists_everything_witness :
  query_for_books 1 (mkWorld ("" :: ["3"]) [] seeded)
  = Ret (map book_of_row (Sqlite.rows seeded))
      (mkWorld ["3"] ([] ++ [Prompt "Query (title or author): "]) seeded).
Proof.
  apply (proj2 (proj2 empty_query_lists_everything) 0%nat ["3"] [] seeded).
  discriminate.
Defined.

Lemma fold_char_percent (c : ascii) :
  Sqlite.fold_char c = "%"%char -> c = "%"%char.
Proof.
  destruct c as [[] [] [] [] [] [] [] []]; vm_compute; intros H;
    try reflexivity; discriminate H.
Qed.

Lemma fold_char_underscore (c : ascii) :
  Sqlite.fold_char c = "_"%char -> c = "_"%char.
Proof.
  destruct c as [[] [] [] [] [] [] [] []]; vm_compute; intros H;
    try reflexivity; discriminate H.
Qed.

Lemma eqb_fold_meta (c1 c2 m : ascii) :
  m = "%"%char \/ m = "_"%char ->
  Sqlite.fold_char c1 = Sqlite.fold_char c2 ->
  Ascii.eqb c1 m = Ascii.eqb c2 m.
Proof.
  intros Hm H.
  destruct (Ascii.eqb_spec c1 m) as [E1|E1], (Ascii.eqb_spec c2 m) as [E2|E2];
    try reflexivity; exfalso.
  - subst c1. apply E2. symmetry in H.
    destruct Hm; subst m; [now apply fold_char_percent | now apply fold_char_underscore].
  - subst c2. apply E1.
    destruct Hm; subst m; [now apply fold_char_percent | now apply fold_char_underscore].
Qed.

Lemma like_pattern_nocase (p1 p2 : string) :
  fold_case p1 = fold_case p2 -> forall s, Sqlite.like p1 s = Sqlite.like p2 s.
Proof.
  revert p2. induction p1 as [|c1 p1 IH]; intros [|c2 p2] H; try discriminate;
    [reflexivity|].
  rewrite !fold_case_cons in H. injection H as Hc Hp. specialize (IH p2 Hp).
  pose proof (eqb_fold_meta c1 c2 "%" (or_introl eq_refl) Hc) as Ep.
  pose proof (eqb_fold_meta c1 c2 "_" (or_intror eq_refl) Hc) as Eu.
  destruct (Ascii.eqb c1 "%") eqn:E1.
  - apply Ascii.eqb_eq in E1. symmetry in Ep. apply Ascii.eqb_eq in Ep. subst c1 c2.
    induction s as [|d s IHs].
    + now rewrite (like_percent p1 ""), (like_percent p2 ""), IH.
    + rewrite (like_percent p1 (String d s)), (like_percent p2 (String d s)).
      now rewrite IH, IHs.
  - symmetry in Ep. intros [|d s].
    + now rewrite !like_char_empty.
    + rewrite !like_char by assumption. now rewrite Eu, Hc, IH.
Qed.

Lemma like_text_nocase (p s1 s2 : string) :
  fold_case s1 = fold_case s2 -> Sqlite.like p s1 = Sqlite.like p s2.
Proof.
  revert s1 s2. induction p as [|c p IH]; intros s1 s2 H.
  - destruct s1, s2; try discriminate; reflexivity.
  - destruct (Ascii.eqb c "%") eqn:E.
    + apply Ascii.eqb_eq in E. subst c. revert s2 H.
      induction s1 as [|d1 s1 IHs]; intros [|d2 s2] H; try discriminate.
      * reflexivity.
      * rewrite !fold_case_cons in H. injection H as Hd Hs.
        rewrite !(like_percent p (String _ _)).
        rewrite (IH (String d1 s1) (String d2 s2))
          by (rewrite !fold_case_cons; congruence).
        now rewrite (IHs s2 Hs).
    + destruct s1 as [|d1 s1], s2 as [|d2 s2]; try discriminate.
      * reflexivity.
      * rewrite !fold_case_cons in H. injection H as Hd Hs.
        rewrite !like_char by assumption. now rewrite Hd, (IH s1 s2 Hs).
Qed.

Lemma fold_case_wrap (q1 q2 : string) :
  fold_case q1 = fold_case q2 -> fold_case (wrap q1) = fold_case (wrap q2).
Proof.
  intros H. unfold wrap. simpl append. rewrite !fold_case_cons. f_equal.
  revert q2 H. induction q1 as [|c q1 IH]; intros [|c2 q2] H; try discriminate;
    [reflexivity|].
  simpl append. rewrite !fold_case_cons in *. injection H as Hc Hq.
  f_equal; auto.
Qed.

(** X12.  Matching ignores the case of ASCII letters on both sides: two
    queries that differ only in the case of ASCII letters make
    [find_matching_books] return the same records, and a record is found by a
    pattern whatever the case of the ASCII letters of its title and author. *)
Theorem matching_ignores_ascii_case (q1 q2 : string) :
  fold_case q1 = fold_case q2 ->
  (forall w, find_matching_books (wrap q1) w = find_matching_books (wrap q2) w)
  /\ (forall p s1 s2, fold_case s1 = fold_case s2 -> Sqlite.like p s1 = Sqlite.like p s2).
Proof.
  intros H. split.
  - intros w. rewrite !find_matching_books_eq. do 2 f_equal.
    apply filter_ext. intros r.
    now rewrite !(like_pattern_nocase _ _ (fold_case_wrap _ _ H)).
  - intros p s1 s2. apply like_text_nocase.
Qed.

Lemma matching_ignores_ascii_case_witness :
  find_matching_books (wrap "POTTER") (mkWorld [] [] seeded)
  = find_matching_books (wrap "potter") (mkWorld [] [] seeded).
Proof.
  apply (proj1 (matching_ignores_ascii_case "POTTER" "potter" eq_refl)).
Defined.

(** ** Adding several books in one visit *)

Lemma largest_id_app (rs : list Sqlite.row) (r : Sqlite.row) :
  Sqlite.largest_id (rs ++ [r]) = Z.max (Sqlite.largest_id rs) (Z.max (Sqlite.row_id r) 0).
Proof. induction rs as [|r' rs IH]; simpl; [lia|]. rewrite IH. lia. Qed.

Lemma next_id_after_insert (d : Sqlite.database) (i : Z) (t a : string) (q : Z) :
  Sqlite.next_id d = Some i ->
  i < Sqlite.max_int64 ->
  Sqlite.next_id (Sqlite.mkDb (Sqlite.rows d ++ [(i, t, a, q)]) i) = Some (i + 1).
Proof.
  intros Hi Hmax. pose proof (next_id_positive _ _ Hi) as Hpos.
  unfold Sqlite.next_id in *. simpl Sqlite.rows. simpl Sqlite.sequence.
  rewrite largest_id_app. simpl Sqlite.row_id.
  destruct (Z.ltb_spec (Z.max (Sqlite.sequence d) (Sqlite.largest_id (Sqlite.rows d)))
              Sqlite.max_int64); [|discriminate].
  injection Hi as Hi.
  destruct (Z.ltb_spec (Z.max i (Z.max (Sqlite.largest_id (Sqlite.rows d)) (Z.max i 0)))
              Sqlite.max_int64); [f_equal; lia | lia].
Qed.

Lemma says_yes_lower (answer : string) :
  (says_yes answer -> String.eqb (Py.lower answer) "y" = true)
  /\ (~ says_yes answer -> String.eqb (Py.lower answer) "y" = false).
Proof.
  split; intros H.
  - apply String.eqb_eq. now apply lower_y.
  - apply String.eqb_neq. intros E. apply H. now apply lower_y.
Qed.

Lemma add_books_body_round (n : nat) (e : entry) (rest : list string)
  (out : list output) (d : Sqlite.database) (i : Z) :
  valid_entry e ->
  Sqlite.next_id d = Some i ->
  add_books_body (S n) (mkWorld (entry_lines e ++ rest) out d)
  = Ret (if String.eqb (Py.lower (entry_answer e)) "y" then None else Some tt)
      (mkWorld rest (out ++ add_round_output)
         (Sqlite.mkDb
            (Sqlite.rows d ++ [(i, entry_title e, entry_author e, entry_quantity e)]) i)).
Proof.
  intros (Ht & Ha & Hq & Hfit) Hi.
  assert (Hins : Sqlite.insert_auto (entry_title e) (entry_author e) (entry_quantity e) d
                 = Some (Sqlite.mkDb
                           (Sqlite.rows d
                              ++ [(i, entry_title e, entry_author e, entry_quantity e)]) i))
    by (unfold Sqlite.insert_auto; now rewrite Hi).
  unfold entry_lines. simpl app.
  unfold add_books_body. rewrite bind_print.
  rewrite (bind_Ret _ _ _ _ _ (input_non_empty_string_accept _ _ _ _ _ _ Ht)).
  rewrite (bind_Ret _ _ _ _ _ (input_non_empty_string_accept _ _ _ _ _ _ Ha)).
  rewrite (bind_Ret _ _ _ _ _ (input_integer_accept _ _ _ _ _ _ _ Hq)).
  rewrite (bind_Ret _ _ _ _ _ (execute_insert_eq _ _ _ _ _ _ _ Hfit Hins)).
  rewrite !bind_print.
  rewrite (bind_Ret _ _ _ _ _ (input_cons _ _ _ _ _)).
  unfold add_round_output. rewrite <- !app_assoc. simpl app.
  now destruct (String.eqb (Py.lower (entry_answer e)) "y").
Qed.

Lemma add_books_loop_many (n : nat) (last : entry) (rest : list string) :
  valid_entry last -> ~ says_yes (entry_answer last) ->
  forall (more : list entry) (fuel : nat) (out : list output) (d : Sqlite.database) (i : Z),
    Forall valid_entry more ->
    Forall (fun e => says_yes (entry_answer e)) more ->
    Sqlite.next_id d = Some i ->
    i + Z.of_nat (List.length more) <= Sqlite.max_int64 ->
    (List.length more < fuel)%nat ->
    while_true fuel (add_books_body (S n))
      (mkWorld (flat_map entry_lines (more ++ [last]) ++ rest) out d)
    = Ret tt
        (mkWorld rest (out ++ flat_map (fun _ => add_round_output) (more ++ [last]))
           (Sqlite.mkDb (Sqlite.rows d ++ entry_rows i (more ++ [last]))
              (i + Z.of_nat (List.length more)))).
Proof.
  intros Hlast Hno. induction more as [|e more IH]; intros fuel out d i Hv Hy Hi Hmax Hk;
    (destruct fuel as [|fuel]; [simpl in Hk; lia|]); rewrite while_true_S.
  - change (flat_map entry_lines ([] ++ [last]) ++ rest)%list
      with (entry_lines last ++ rest)%list.
    rewrite (add_books_body_round n last rest out d i Hlast Hi).
    rewrite (proj2 (says_yes_lower _) Hno). unfold add_round_output. simpl.
    now rewrite Z.add_0_r.
  - inversion Hv as [|? ? Hve Hvm]; subst. inversion Hy as [|? ? Hye Hym]; subst.
    change (flat_map entry_lines ((e :: more) ++ [last]) ++ rest)%list
      with ((entry_lines e ++ flat_map entry_lines (more ++ [last])) ++ rest)%list.
    rewrite <- app_assoc.
    rewrite (add_books_body_round n e _ out d i Hve Hi).
    rewrite (proj1 (says_yes_lower _) Hye).
    simpl List.length in Hmax, Hk. rewrite Nat2Z.inj_succ in Hmax.
    rewrite IH with (i := i + 1); try assumption; try lia.
    + simpl Sqlite.rows. simpl flat_map. simpl entry_rows. simpl List.length.
      rewrite <- !app_assoc. simpl app.
      replace (i + Z.of_nat (S (List.length more))) with (i + 1 + Z.of_nat (List.length more))
        by lia.
      reflexivity.
    + apply next_id_after_insert; [assumption | lia].
Qed.

(** X4.  Adding several books in one visit: when every pass but the last is
    answered y or Y and the last with anything else, [add_books] appends the
    entered books to the table in the order they were typed, with consecutive
    ids that start at the next id of the table, leaves the earlier rows as
    they were, and returns after the last pass. *)
Theorem add_books_appends_in_order (n : nat) (more : list entry) (last : entry)
  (rest : list string) (out : list output) (d : Sqlite.database) (i : Z) :
  Forall valid_entry (more ++ [last]) ->
  Forall (fun e => says_yes (entry_answer e)) more ->
  ~ says_yes (entry_answer last) ->
  Sqlite.next_id d = Some i ->
  i + Z.of_nat (List.length more) <= Sqlite.max_int64 ->
  (List.length more <= n)%nat ->
  add_books (S n) (mkWorld (flat_map entry_lines (more ++ [last]) ++ rest) out d)
  = Ret tt
      (mkWorld rest
         (out ++ [Line "-- Add new books --"; Line ""]
              ++ flat_map (fun _ => add_round_output) (more ++ [last]))
         (Sqlite.mkDb (Sqlite.rows d ++ entry_rows i (more ++ [last]))
            (i + Z.of_nat (List.length more)))).
Proof.
  intros Hv Hy Hno Hi Hmax Hn. apply Forall_app in Hv. destruct Hv as [Hvm Hvl].
  inversion Hvl as [|? ? Hlast _]; subst.
  unfold add_books. rewrite !bind_print.
  rewrite (add_books_loop_many n last rest Hlast Hno more (S n) _ d i Hvm Hy Hi Hmax)
    by lia.
  now rewrite <- !app_assoc.
Qed.

Lemma add_books_appends_in_order_witness :
  add_books 2
    (mkWorld (flat_map entry_lines
                ([mkEntry "Dune" "Frank Herbert" "10" 10 "Y"]
                   ++ [mkEntry "Emma" "Jane Austen" " 3 " 3 "no"]) ++ ["0"]) [] seeded)
  = Ret tt
      (mkWorld ["0"]
         ([] ++ [Line "-- Add new books --"; Line ""]
             ++ flat_map (fun _ => add_round_output)
                  ([mkEntry "Dune" "Frank Herbert" "10" 10 "Y"]
                     ++ [mkEntry "Emma" "Jane Austen" " 3 " 3 "no"]))
         (Sqlite.mkDb
            (Sqlite.rows seeded
               ++ entry_rows 3006
                    ([mkEntry "Dune" "Frank Herbert" "10" 10 "Y"]
                       ++ [mkEntry "Emma" "Jane Austen" " 3 " 3 "no"]))
            (3006 + Z.of_nat (List.length [mkEntry "Dune" "Frank Herbert" "10" 10 "Y"])))).
Proof.
  apply (add_books_appends_in_order 1 [mkEntry "Dune" "Frank Herbert" "10" 10 "Y"]
           (mkEntry "Emma" "Jane Austen" " 3 " 3 "no") ["0"] [] seeded 3006).
  - repeat constructor; discriminate.
  - constructor; [now right | constructor].
  - intros [H | H]; discriminate H.
  - reflexivity.
  - vm_compute. discriminate.
  - simpl. lia.
Defined.

(** X8.  A stock line that [int] accepts with a value outside the 64-bit
    range makes [add_books] end in [OverflowError] at the INSERT: the three lines have been read, nothing is
    written to the table and "Saved." is not printed. *)
Theorem add_books_overflow_writes_nothing (n : nat) (t a qline : string) (q : Z)
  (rest : list string) (out : list output) (d : Sqlite.database) :
  t <> "" -> a <> "" ->
  Py.int qline = Some q ->
  Sqlite.fits_int64 q = false ->
  add_books (S n) (mkWorld (t :: a :: qline :: rest) out d)
  = Raise OverflowError
      (mkWorld rest
         (out ++ [Line "-- Add new books --"; Line ""; Line "Please enter the book details:";
                  Prompt "Title: "; Prompt "Author: "; Prompt "Number in stock: "]) d).
Proof.
  intros Ht Ha Hq Hfit.
  unfold add_books. rewrite !bind_print, while_true_S.
  unfold add_books_body. rewrite bind_print.
  rewrite (bind_Ret _ _ _ _ _ (input_non_empty_string_accept _ _ _ _ _ _ Ht)).
  rewrite (bind_Ret _ _ _ _ _ (input_non_empty_string_accept _ _ _ _ _ _ Ha)).
  rewrite (bind_Ret _ _ _ _ _ (input_integer_accept _ _ _ _ _ _ _ Hq)).
  unfold execute_insert, bind, bind_int. rewrite Hfit. unfold raise.
  now rewrite <- !app_assoc.
Qed.

Lemma add_books_overflow_writes_nothing_witness :
  add_books 1 (mkWorld ("Dune" :: "Frank Herbert" :: "-9223372036854775809" :: ["n"]) [] seeded)
  = Raise OverflowError
      (mkWorld ["n"]
         ([] ++ [Line "-- Add new books --"; Line ""; Line "Please enter the book details:";
                 Prompt "Title: "; Prompt "Author: "; Prompt "Number in stock: "]) seeded).
Proof.
  apply (add_books_overflow_writes_nothing 0 "Dune" "Frank Herbert" "-9223372036854775809"
           (-9223372036854775809) ["n"] [] seeded);
    try discriminate; reflexivity.
Defined.

(** ** Ids: unique, ascending, never handed out twice *)

Lemma ids_update (t a : string) (q i : Z) (d : Sqlite.database) :
  ids (Sqlite.update_where_id t a q i d) = ids d.
Proof.
  unfold ids, Sqlite.update_where_id. simpl Sqlite.rows. rewrite map_map.
  apply map_ext. intros r. now destruct (Sqlite.row_id r =? i).
Qed.

Lemma sorted_filter (f : Sqlite.row -> bool) (rs : list Sqlite.row) :
  StronglySorted Z.lt (map Sqlite.row_id rs) ->
  StronglySorted Z.lt (map Sqlite.row_id (filter f rs)).
Proof.
  induction rs as [|r rs IH]; simpl; intros H; [constructor|].
  inversion H as [|? ? Hs Hall]; subst. destruct (f r); simpl; [|now apply IH].
  constructor; [now apply IH|].
  rewrite Forall_forall in *. intros j Hj. apply Hall.
  apply in_map_iff in Hj. destruct Hj as (r' & <- & Hr'). apply filter_In in Hr'.
  apply in_map. tauto.
Qed.

Lemma sorted_snoc (l : list Z) (i : Z) :
  StronglySorted Z.lt l -> Forall (fun j => j < i) l -> StronglySorted Z.lt (l ++ [i]).
Proof.
  induction l as [|x l IH]; simpl; intros Hs Hall.
  - repeat constructor.
  - inversion Hs as [|? ? Hs' Hx]; subst. inversion Hall as [|? ? Hxi Hall']; subst.
    constructor; [now apply IH|].
    apply Forall_app. split; [assumption | now repeat constructor].
Qed.

Lemma step_ascending_ids (w w' : world) :
  step w w' -> ascending_ids (db w) -> ascending_ids (db w').
Proof.
  unfold ascending_ids.
  intros H. destruct H as [| | ? ? d t a q d' Hq Hi | ? ? d t a q i Hq Hi | ? ? d i];
    simpl; intros Hd; try assumption.
  - unfold Sqlite.insert_auto in Hi. destruct (Sqlite.next_id d) as [i|] eqn:E; [|discriminate].
    injection Hi as <-. unfold ids in *. simpl Sqlite.rows. rewrite map_app. simpl map.
    apply sorted_snoc; [assumption|].
    apply Forall_forall. intros j Hj. apply in_map_iff in Hj. destruct Hj as (r & <- & Hr).
    now apply (next_id_above _ _ E).
  - now rewrite ids_update.
  - unfold ids, Sqlite.delete_where_id. simpl Sqlite.rows. now apply sorted_filter.
Qed.

Lemma reaches_ascending_ids (w w' : world) :
  reaches w w' -> ascending_ids (db w) -> ascending_ids (db w').
Proof.
  intros H. induction H as [w w' H| |w1 w2 w3 _ IH1 _ IH2]; auto.
  now apply step_ascending_ids.
Qed.

Lemma ascending_ids_NoDup (d : Sqlite.database) : ascending_ids d -> NoDup (ids d).
Proof.
  unfold ascending_ids. induction (ids d) as [|x l IH]; intros H; constructor;
    inversion H as [|? ? Hs Hx]; subst.
  - intros Hin. rewrite Forall_forall in Hx. specialize (Hx x Hin). lia.
  - now apply IH.
Qed.

Lemma seeded_ascending_ids : ascending_ids seeded.
Proof.
  unfold ascending_ids. vm_compute.
  repeat (constructor; [|repeat (constructor; [reflexivity|]); constructor]).
  constructor.
Qed.

(** X5.  Ids stay unique: if the ids of the table are strictly ascending when
    the program starts (as they are in the seeded table of a first run), they
    are strictly ascending, hence without repeats, however the run of the
    whole script ends, whatever is typed. *)
Theorem ids_stay_unique (file : option Sqlite.database) (lines : list string)
  (o : outcome unit) :
  (forall d, file = Some d -> ascending_ids d) ->
  run file lines = Some o ->
  ascending_ids (db (world_of o)) /\ NoDup (ids (db (world_of o))).
Proof.
  intros Hfile Hrun.
  assert (H : ascending_ids (db (world_of o))).
  { unfold run in Hrun.
    destruct (initialise_database file) as [d|] eqn:E; [|discriminate].
    injection Hrun as <-.
    apply (reaches_ascending_ids (mkWorld lines [] d)); [apply respects_main_menu|].
    simpl. destruct file as [d0|].
    - injection E as <-. now apply Hfile.
    - injection E as <-. exact seeded_ascending_ids. }
  split; [exact H | now apply ascending_ids_NoDup].
Qed.

Lemma ids_stay_unique_witness :
  ascending_ids
    (db (world_of (main_menu 9
                     (mkWorld ["3"; "alice"; "1"; "1"; "Dune"; "Frank Herbert"; "10"; "n"]
                        [] seeded))))
  /\ NoDup
       (ids (db (world_of (main_menu 9
                             (mkWorld ["3"; "alice"; "1"; "1"; "Dune"; "Frank Herbert"; "10"; "n"]
                                [] seeded))))).
Proof.
  apply (ids_stay_unique (Some seeded)
           ["3"; "alice"; "1"; "1"; "Dune"; "Frank Herbert"; "10"; "n"]).
  - intros d H. injection H as <-. exact seeded_ascending_ids.
  - reflexivity.
Defined.

Lemma step_ids_fresh (w w' : world) :
  step w w' ->
  Sqlite.sequence (db w) <= Sqlite.sequence (db w')
  /\ forall j, In j (ids (db w')) -> In j (ids (db w)) \/ Sqlite.sequence (db w) < j.
Proof.
  intros H. destruct H as [| | ? ? d t a q d' Hq Hi | ? ? d t a q i Hq Hi | ? ? d i];
    simpl; try (split; [lia | now left]).
  - unfold Sqlite.insert_auto in Hi. destruct (Sqlite.next_id d) as [i|] eqn:E; [|discriminate].
    injection Hi as <-. apply next_id_above in E. destruct E as (Hseq & _ & _).
    simpl. split; [lia|]. intros j Hj. unfold ids in Hj. simpl in Hj.
    rewrite map_app in Hj. apply in_app_or in Hj. destruct Hj as [Hj | [<- | []]].
    + now left.
    + now right.
  - split; [lia|]. intros j Hj. left. now rewrite ids_update in Hj.
  - split; [lia|]. intros j Hj. left. unfold ids in *. simpl in Hj.
    apply in_map_iff in Hj. destruct Hj as (r & <- & Hr). apply filter_In in Hr.
    apply in_map. tauto.
Qed.

Lemma reaches_ids_fresh (w w' : world) :
  reaches w w' ->
  Sqlite.sequence (db w) <= Sqlite.sequence (db w')
  /\ forall j, In j (ids (db w')) -> In j (ids (db w)) \/ Sqlite.sequence (db w) < j.
Proof.
  intros H. induction H as [w w' H| w |w1 w2 w3 _ [IH1 IH1'] _ [IH2 IH2']].
  - now apply step_ids_fresh.
  - split; [lia | now left].
  - split; [lia|]. intros j Hj. destruct (IH2' j Hj) as [Hj2 | Hj2].
    + apply IH1'. exact Hj2.
    + right. lia.
Qed.

(** X6.  An id is never handed out twice: an id at or below the
    AUTOINCREMENT counter that no record carries (for instance the id of a
    record deleted earlier) is carried by no record after any further run of
    the menu loop, whatever is typed, and the counter never goes down. *)
Theorem ids_are_never_reused (n : nat) (w : world) (j : Z) :
  j <= Sqlite.sequence (db w) ->
  ~ In j (ids (db w)) ->
  ~ In j (ids (db (world_of (main_menu n w))))
  /\ Sqlite.sequence (db w) <= Sqlite.sequence (db (world_of (main_menu n w))).
Proof.
  intros Hj Hout.
  destruct (reaches_ids_fresh _ _ (respects_main_menu n w)) as [Hseq Hids].
  split; [|exact Hseq]. intros Hin. destruct (Hids j Hin); [contradiction | lia].
Qed.

Lemma ids_are_never_reused_witness :
  ~ In 3005
      (ids (db (world_of
                  (main_menu 5
                     (mkWorld ["1"; "Dune"; "Frank Herbert"; "10"; "n"] []
                        (Sqlite.delete_where_id 3005 seeded))))))
  /\ Sqlite.sequence (Sqlite.delete_where_id 3005 seeded)
     <= Sqlite.sequence
          (db (world_of
                 (main_menu 5
                    (mkWorld ["1"; "Dune"; "Frank Herbert"; "10"; "n"] []
                       (Sqlite.delete_where_id 3005 seeded))))).
Proof.
  apply (ids_are_never_reused 5
           (mkWorld ["1"; "Dune"; "Frank Herbert"; "10"; "n"] []
              (Sqlite.delete_where_id 3005 seeded)) 3005).
  - vm_compute. discriminate.
  - vm_compute. intuition discriminate.
Defined.

(** ** The update and delete workflows from end to end *)


Lemma execute_delete_world (i : Z) (inp : list string) (out : list output)
  (d : Sqlite.database) :
  Sqlite.fits_int64 i = true ->
  execute_delete i (mkWorld inp out d)
  = Ret tt (mkWorld inp out (Sqlite.delete_where_id i d)).
Proof. intros H. now rewrite execute_delete_eq. Qed.









(** ** What the workflows leave alone *)

Section Keeping.

Variable R : world -> world -> Prop.
Hypothesis R_refl : forall w, R w w.
Hypothesis R_trans : forall w1 w2 w3, R w1 w2 -> R w2 w3 -> R w1 w3.
Hypothesis R_terminal :
  forall inp out inp' out' d, R (mkWorld inp out d) (mkWorld inp' out' d).
Hypothesis R_insert :
  forall inp out d t a q d',
    Sqlite.insert_auto t a q d = Some d' -> R (mkWorld inp out d) (mkWorld inp out d').

Lemma keeps_ret {A : Type} (a : A) : keeps R (ret a).
Proof. intros w. apply R_refl. Qed.

Lemma keeps_raise {A : Type} (e : exn) : keeps R (@raise A e).
Proof. intros w. apply R_refl. Qed.

Lemma keeps_bind {A B : Type} (m : M A) (k : A -> M B) :
  keeps R m -> (forall a, keeps R (k a)) -> keeps R (bind m k).
Proof.
  intros Hm Hk w. unfold bind. specialize (Hm w).
  destruct (m w) as [a w1|e w1|w1]; simpl in *; [|assumption..].
  eapply R_trans; [exact Hm | apply Hk].
Qed.

Lemma keeps_while {A : Type} (k : nat) (body : M (option A)) :
  keeps R body -> keeps R (while_true k body).
Proof.
  intros Hb. induction k as [|k IH]; intros w; [apply R_refl|].
  rewrite while_true_S. specialize (Hb w).
  destruct (body w) as [[a|] w1|e w1|w1]; simpl in *; try assumption.
  eapply R_trans; [exact Hb | apply IH].
Qed.

Lemma keeps_write (o : output) : keeps R (write o).
Proof. intros [inp out d]. apply R_terminal. Qed.

Lemma keeps_input (prompt : string) : keeps R (input prompt).
Proof. intros [[|l inp] out d]; apply R_terminal. Qed.

Lemma keeps_find_matching_books (query : string) : keeps R (find_matching_books query).
Proof. intros w. apply R_refl. Qed.

Lemma keeps_list_get {A : Type} (l : list A) (index : Z) : keeps R (list_get l index).
Proof.
  intros w. unfold list_get.
  destruct (_ <? 0); [apply R_refl|]. destruct (nth_error _ _); apply R_refl.
Qed.

Lemma keeps_execute_insert (t a : string) (q : Z) : keeps R (execute_insert t a q).
Proof.
  intros [inp out d]. unfold execute_insert, bind, bind_int.
  destruct (Sqlite.fits_int64 q); [|apply R_refl].
  unfold ret, execute. simpl db.
  destruct (Sqlite.insert_auto t a q d) as [d'|] eqn:E; [|apply R_refl].
  now apply R_insert with t a q.
Qed.

Create HintDb keeping.

#[local] Hint Resolve keeps_ret keeps_raise keeps_write keeps_input
  keeps_find_matching_books keeps_list_get keeps_execute_insert : keeping.

Ltac keeping :=
  intros; cbv zeta;
  lazymatch goal with
  | |- keeps _ (bind _ _) => apply keeps_bind; keeping
  | |- keeps _ (while_true _ _) => apply keeps_while; keeping
  | |- keeps _ (if ?b then _ else _) => destruct b; keeping
  | |- keeps _ (match ?x with _ => _ end) => destruct x; keeping
  | _ => unfold print, print_table; auto with keeping
  end.

Lemma keeps_input_non_empty_string n p : keeps R (input_non_empty_string n p).
Proof. unfold input_non_empty_string. keeping. Qed.

Lemma keeps_input_integer n p : keeps R (input_integer n p).
Proof. unfold input_integer. keeping. Qed.

Lemma keeps_input_integer_or_none n p : keeps R (input_integer_or_none n p).
Proof. unfold input_integer_or_none. keeping. Qed.

#[local] Hint Resolve keeps_input_non_empty_string keeps_input_integer
  keeps_input_integer_or_none : keeping.

Lemma keeps_query_for_books n : keeps R (query_for_books n).
Proof. unfold query_for_books. keeping. Qed.

Lemma keeps_select_book_body n books : keeps R (select_book_body n books).
Proof. unfold select_book_body. keeping. Qed.

#[local] Hint Resolve keeps_select_book_body : keeping.

Lemma keeps_select_book_from_list n books : keeps R (select_book_from_list n books).
Proof. unfold select_book_from_list. keeping. Qed.

Lemma keeps_search_books : keeps R search_books.
Proof. unfold search_books. keeping. Qed.

Lemma keeps_add_books_body n : keeps R (add_books_body n).
Proof. unfold add_books_body. keeping. Qed.

#[local] Hint Resolve keeps_add_books_body : keeping.

Lemma keeps_add_books n : keeps R (add_books n).
Proof. unfold add_books. keeping. Qed.

End Keeping.

Lemma same_table_trans (w1 w2 w3 : world) :
  same_table w1 w2 -> same_table w2 w3 -> same_table w1 w3.
Proof. unfold same_table. congruence. Qed.

Lemma rows_appended_trans (w1 w2 w3 : world) :
  rows_appended w1 w2 -> rows_appended w2 w3 -> rows_appended w1 w3.
Proof.
  intros [n1 H1] [n2 H2]. exists (n1 ++ n2)%list. now rewrite H2, H1, app_assoc.
Qed.

(** X16.  Searching, asking for a query and selecting are read-only: however
    [search_books], [query_for_books] and [select_book_from_list] end (a
    return, an exception, any input, any list of books), the table is the
    one they started with. *)
Theorem reading_workflows_leave_table_alone :
  keeps same_table search_books
  /\ (forall n, keeps same_table (query_for_books n))
  /\ (forall n books, keeps same_table (select_book_from_list n books)).
Proof.
  assert (Hrefl : forall w, same_table w w) by reflexivity.
  assert (Hterm : forall inp out inp' out' d,
             same_table (mkWorld inp out d) (mkWorld inp' out' d)) by reflexivity.
  split; [|split]; intros.
  - now apply keeps_search_books with (1 := Hrefl) (2 := same_table_trans).
  - now apply keeps_query_for_books with (1 := Hrefl) (2 := same_table_trans).
  - now apply keeps_select_book_from_list with (1 := Hrefl) (2 := same_table_trans).
Qed.

(** X17.  The add workflow only appends: however [add_books] ends and
    whatever is typed, every row that was in the table is still there, in
    its place and unchanged, and what is new comes after the old rows. *)
Theorem add_books_only_appends (n : nat) : keeps rows_appended (add_books n).
Proof.
  apply keeps_add_books.
  - intros w. exists []. now rewrite app_nil_r.
  - exact rows_appended_trans.
  - intros inp out inp' out' d. exists []. simpl. now rewrite app_nil_r.
  - intros inp out d t a q d' H. unfold Sqlite.insert_auto in H.
    destruct (Sqlite.next_id d) as [i|]; [|discriminate]. injection H as <-.
    now exists [(i, t, a, q)].
Qed.

(** ** The exceptions that can leave the program *)

Section Raising.

Variable allowed : exn -> Prop.
Hypothesis allowed_eof : allowed EOFError.
Hypothesis allowed_overflow : allowed OverflowError.
Hypothesis allowed_operational : allowed OperationalError.

Lemma only_ret {A : Type} (a : A) : raises_only allowed (ret a).
Proof. intros w e w' H. discriminate H. Qed.

Lemma only_bind {A B : Type} (m : M A) (k : A -> M B) :
  raises_only allowed m -> (forall a, raises_only allowed (k a)) ->
  raises_only allowed (bind m k).
Proof.
  intros Hm Hk w e w'. unfold bind. specialize (Hm w).
  destruct (m w) as [a w1|e1 w1|w1]; [apply Hk | | discriminate].
  intros [= <- <-]. now apply (Hm e1 w1).
Qed.

Lemma only_while {A : Type} (k : nat) (body : M (option A)) :
  raises_only allowed body -> raises_only allowed (while_true k body).
Proof.
  intros Hb. induction k as [|k IH]; intros w e w'; [discriminate|].
  rewrite while_true_S. specialize (Hb w).
  destruct (body w) as [[a|] w1|e1 w1|w1]; try discriminate.
  - apply IH.
  - intros [= <- <-]. now apply (Hb e1 w1).
Qed.

Lemma only_write (o : output) : raises_only allowed (write o).
Proof. intros w e w' H. discriminate H. Qed.

Lemma only_input (prompt : string) : raises_only allowed (input prompt).
Proof.
  intros [[|l inp] out d] e w'; unfold input; simpl; [|discriminate].
  now intros [= <- <-].
Qed.

Lemma only_find_matching_books (query : string) :
  raises_only allowed (find_matching_books query).
Proof. intros w e w' H. discriminate H. Qed.

Lemma only_execute_insert (t a : string) (q : Z) : raises_only allowed (execute_insert t a q).
Proof.
  intros w e w'. unfold execute_insert, bind, bind_int, execute.
  destruct (Sqlite.fits_int64 q); unfold ret, raise; [|now intros [= <- <-]].
  destruct (Sqlite.insert_auto _ _ _ _); [discriminate | now intros [= <- <-]].
Qed.

Lemma only_execute_update (b : Book) : raises_only allowed (execute_update b).
Proof.
  intros w e w'. unfold execute_update, bind, bind_int, execute.
  destruct (Sqlite.fits_int64 (quantity b)); unfold ret, raise; [|now intros [= <- <-]].
  destruct (Sqlite.fits_int64 (id b)); simpl; intros H; [discriminate H|].
  injection H as <- _. exact allowed_overflow.
Qed.

Lemma only_execute_delete (i : Z) : raises_only allowed (execute_delete i).
Proof.
  intros w e w'. unfold execute_delete, bind, bind_int, execute.
  destruct (Sqlite.fits_int64 i); unfold ret, raise; simpl; intros H; [discriminate H|].
  injection H as <- _. exact allowed_overflow.
Qed.

(** Under the guard of [select_book_from_list] the indexing cannot fail. *)
Lemma list_get_guarded {A : Type} (l : list A) (index : Z) :
  (index <? 0) || (index >=? Z.of_nat (List.length l)) = false ->
  exists a, list_get l index = ret a.
Proof.
  intros H. apply orb_false_iff in H. destruct H as [H0 Hlen].
  rewrite Z.geb_leb in Hlen. apply Z.leb_gt in Hlen. apply Z.ltb_ge in H0.
  destruct (nth_error l (Z.to_nat index)) as [a|] eqn:E.
  - exists a. assert (E0 : (index <? 0) = false) by (now apply Z.ltb_ge).
    unfold list_get. cbv zeta. rewrite E0. cbv iota. now rewrite E0, E.
  - apply nth_error_None in E. lia.
Qed.

Create HintDb raising.

#[local] Hint Resolve only_ret only_write only_input only_find_matching_books
  only_execute_insert only_execute_update only_execute_delete : raising.

Ltac raising :=
  intros; cbv zeta;
  lazymatch goal with
  | |- raises_only _ (bind _ _) => apply only_bind; raising
  | |- raises_only _ (while_true _ _) => apply only_while; raising
  | |- raises_only _ (if ?b then _ else _) => destruct b; raising
  | |- raises_only _ (match ?x with _ => _ end) => destruct x; raising
  | _ => unfold print, print_table; auto with raising
  end.

Lemma only_input_non_empty_string n p : raises_only allowed (input_non_empty_string n p).
Proof. unfold input_non_empty_string. raising. Qed.

Lemma only_input_integer n p : raises_only allowed (input_integer n p).
Proof. unfold input_integer. raising. Qed.

Lemma only_input_integer_or_none n p : raises_only allowed (input_integer_or_none n p).
Proof. unfold input_integer_or_none. raising. Qed.

#[local] Hint Resolve only_input_non_empty_string only_input_integer
  only_input_integer_or_none : raising.

Lemma only_select_book_body n books : raises_only allowed (select_book_body n books).
Proof.
  unfold select_book_body. apply only_bind; [auto with raising|].
  intros index. cbv zeta.
  destruct ((index - 1 <? 0) || (index - 1 >=? Z.of_nat (List.length books))) eqn:E;
    [raising|].
  destruct (list_get_guarded books (index - 1) E) as [b ->].
  raising.
Qed.

Lemma only_add_books_body n : raises_only allowed (add_books_body n).
Proof. unfold add_books_body. raising. Qed.

#[local] Hint Resolve only_select_book_body only_add_books_body : raising.

Lemma only_add_books n : raises_only allowed (add_books n).
Proof. unfold add_books. raising. Qed.

Lemma only_query_for_books n : raises_only allowed (query_for_books n).
Proof. unfold query_for_books. raising. Qed.

Lemma only_select_book_from_list n books :
  raises_only allowed (select_book_from_list n books).
Proof. unfold select_book_from_list. raising. Qed.

#[local] Hint Resolve only_add_books only_query_for_books only_select_book_from_list
  : raising.

Lemma only_update_book n : raises_only allowed (update_book n).
Proof. unfold update_book. raising. Qed.

Lemma only_delete_book n : raises_only allowed (delete_book n).
Proof. unfold delete_book. raising. Qed.

Lemma only_search_books : raises_only allowed search_books.
Proof. unfold search_books. raising. Qed.

Lemma only_print_menu : raises_only allowed print_menu.
Proof. unfold print_menu. raising. Qed.

#[local] Hint Resolve only_update_book only_delete_book only_search_books
  only_print_menu : raising.

Lemma only_main_menu_body n : raises_only allowed (main_menu_body n).
Proof. unfold main_menu_body. raising. Qed.

Lemma only_main_menu n : raises_only allowed (main_menu n).
Proof. unfold main_menu. apply only_while, only_main_menu_body. Qed.

End Raising.

(** X9.  Indexing the list of matches never raises [IndexError]: no run of
    the menu loop ends in [IndexError], whatever number is typed at the
    selection prompt and also when the list of matches is empty. *)
Theorem main_menu_never_raises_index_error (n : nat) (w : world) (e : exn) (w' : world) :
  main_menu n w = Raise e w' -> e <> IndexError.
Proof.
  apply (only_main_menu (fun e => e <> IndexError)); discriminate.
Qed.

Lemma main_menu_never_raises_index_error_witness : EOFError <> IndexError.
Proof.
  apply (main_menu_never_raises_index_error 5
           (mkWorld ["2"; "zzz"; "n"; "1"; "0"] [] seeded)
           EOFError
           (world_of (main_menu 5 (mkWorld ["2"; "zzz"; "n"; "1"; "0"] [] seeded)))).
  vm_compute. reflexivity.
Defined.

(** ** No loop spins without reading *)

Lemma consuming_query_for_books n : consuming (query_for_books n).
Proof. unfold query_for_books. prog. Qed.

(** X10.  Every pass of every loop of the program reads at least one line
    before it comes back: the three input helpers, the query loop and one
    round of the add, selection and menu loops all consume input on a normal
    return.  Hence the script cannot spin: on a terminal with k pending lines
    it ends, in a return or an exception, within k + 1 passes of each loop. *)
Theorem every_loop_reads_input :
  (forall n p, consuming (input_non_empty_string n p)
               /\ consuming (input_integer n p)
               /\ consuming (input_integer_or_none n p))
  /\ (forall n, consuming (query_for_books n)
                /\ consuming (add_books_body n)
                /\ consuming (main_menu_body n))
  /\ (forall n books, consuming (select_book_body n books))
  /\ (forall file lines o,
         run file lines = Some o ->
         (exists w, o = Ret tt w) \/ (exists e w, o = Raise e w)).
Proof.
  split; [|split; [|split]].
  - intros n p. auto with prog.
  - intros n. split; [apply consuming_query_for_books | auto with prog].
  - intros n books. auto with prog.
  - intros file lines o H. pose proof (run_total file lines o H) as Ht.
    destruct o as [[] w|e w|w].
    + left. now exists w.
    + right. now exists e, w.
    + now destruct (Ht w).
Qed.

Lemma every_loop_reads_input_witness :
  (exists w, main_menu 4 (mkWorld ["4"; "dickens"; "7"] [] seeded) = Ret tt w)
  \/ (exists e w, main_menu 4 (mkWorld ["4"; "dickens"; "7"] [] seeded) = Raise e w).
Proof.
  apply (proj2 (proj2 (proj2 every_loop_reads_input)) None ["4"; "dickens"; "7"]).
  reflexivity.
Defined.

(** ** The displayed numbers and the selection *)

Lemma nth_error_enumerate (f : nat * Book -> list cell) (books : list Book) :
  forall (start i : nat) (b : Book),
    nth_error books i = Some b ->
    nth_error (map f (combine (seq start (List.length books)) books)) i
    = Some (f ((start + i)%nat, b)).
Proof.
  induction books as [|x books IH]; intros start [|i] b H; try discriminate.
  - injection H as ->. simpl. now rewrite Nat.add_0_r.
  - simpl in H. simpl. rewrite (IH (S start) i b H). do 3 f_equal. lia.
Qed.

(** X18.  The number shown next to a book is the number that selects it: in
    the table displayed by [select_book_from_list] the k-th row carries the
    number k with the title, author and stock of the k-th book, the table has
    one row per book, and typing k returns that very book. *)
Theorem displayed_number_selects_displayed_book (n : nat) (books : list Book)
  (line : string) (k : Z) (b : Book)
  (rest : list string) (out : list output) (d : Sqlite.database) :
  Py.int line = Some k -> 1 <= k ->
  nth_error books (Z.to_nat (k - 1)) = Some b ->
  nth_error (enumerate_rows books) (Z.to_nat (k - 1))
  = Some [Num k; Txt (title b); Txt (author b); Num (quantity b)]
  /\ List.length (enumerate_rows books) = List.length books
  /\ select_book_from_list (S n) books (mkWorld (line :: rest) out d)
     = Ret b (mkWorld rest (out ++ select_header books ++ [Prompt select_prompt]) d).
Proof.
  intros Hk H1 Hb. split; [|split].
  - unfold enumerate_rows. rewrite (nth_error_enumerate _ books 0 _ b Hb).
    simpl. do 3 f_equal. lia.
  - unfold enumerate_rows. rewrite length_map, length_combine, length_seq. lia.
  - now apply select_book_from_list_accept with k.
Qed.

Lemma displayed_number_selects_displayed_book_witness :
  nth_error (enumerate_rows (map book_of_row (Sqlite.rows seeded))) (Z.to_nat (4 - 1))
  = Some [Num 4; Txt (title (mkBook 3004 "The Lord of the Rings" "J. R. R. Tolkien" 37));
          Txt (author (mkBook 3004 "The Lord of the Rings" "J. R. R. Tolkien" 37));
          Num (quantity (mkBook 3004 "The Lord of the Rings" "J. R. R. Tolkien" 37))]
  /\ List.length (enumerate_rows (map book_of_row (Sqlite.rows seeded)))
     = List.length (map book_of_row (Sqlite.rows seeded))
  /\ select_book_from_list 1 (map book_of_row (Sqlite.rows seeded))
       (mkWorld (" 4" :: ["0"]) [] seeded)
     = Ret (mkBook 3004 "The Lord of the Rings" "J. R. R. Tolkien" 37)
         (mkWorld ["0"]
            ([] ++ select_header (map book_of_row (Sqlite.rows seeded))
                ++ [Prompt select_prompt]) seeded).
Proof.
  apply (displayed_number_selects_displayed_book 0 (map book_of_row (Sqlite.rows seeded))
           " 4" 4 (mkBook 3004 "The Lord of the Rings" "J. R. R. Tolkien" 37)
           ["0"] [] seeded).
  - reflexivity.
  - lia.
  - reflexivity.
Defined.

(** ** Statements in sequence *)

Lemma filter_keeps_all (f : Sqlite.row -> bool) (rs : list Sqlite.row) :
  (forall r, In r rs -> f r = true) -> filter f rs = rs.
Proof.
  induction rs as [|r rs IH]; intros H; [reflexivity|].
  simpl. rewrite (H r (or_introl eq_refl)). f_equal. apply IH. intros r' Hr'.
  apply H. now right.
Qed.

(** X19.  Adding a record and then deleting it by its new id gives back the
    rows the table had, but not the id: the counter stays advanced, so the
    next record gets a larger id. *)
Theorem insert_then_delete_restores_rows (t a : string) (q i : Z)
  (inp : list string) (out : list output) (d : Sqlite.database) :
  Sqlite.fits_int64 q = true ->
  Sqlite.next_id d = Some i ->
  (execute_insert t a q ;; execute_delete i) (mkWorld inp out d)
  = Ret tt (mkWorld inp out (Sqlite.mkDb (Sqlite.rows d) i))
  /\ Sqlite.sequence d < i
  /\ forall i', Sqlite.next_id (Sqlite.mkDb (Sqlite.rows d) i) = Some i' -> i < i'.
Proof.
  intros Hq Hi.
  assert (Hins : Sqlite.insert_auto t a q d
                 = Some (Sqlite.mkDb (Sqlite.rows d ++ [(i, t, a, q)]) i))
    by (unfold Sqlite.insert_auto; now rewrite Hi).
  pose proof (next_id_above _ _ Hi) as (Hseq & Hmax & Hrows).
  pose proof (next_id_positive _ _ Hi) as Hpos.
  split; [|split].
  - rewrite (bind_Ret _ _ _ _ _ (execute_insert_eq _ _ _ _ _ _ _ Hq Hins)).
    rewrite execute_delete_world.
    + do 2 f_equal. unfold Sqlite.delete_where_id. simpl. f_equal.
      rewrite filter_app. simpl. rewrite Z.eqb_refl. simpl. rewrite app_nil_r.
      apply filter_keeps_all. intros r Hr. apply negb_true_iff, Z.eqb_neq.
      specialize (Hrows r Hr). lia.
    + apply fits_int64_spec. unfold Sqlite.min_int64. lia.
  - exact Hseq.
  - intros i' H'. apply next_id_above in H'. simpl in H'. lia.
Qed.

Lemma insert_then_delete_restores_rows_witness :
  (execute_insert "Dune" "Frank Herbert" 10 ;; execute_delete 3006) (mkWorld [] [] seeded)
  = Ret tt (mkWorld [] [] (Sqlite.mkDb (Sqlite.rows seeded) 3006))
  /\ Sqlite.sequence seeded < 3006
  /\ forall i', Sqlite.next_id (Sqlite.mkDb (Sqlite.rows seeded) 3006) = Some i' -> 3006 < i'.
Proof.
  apply (insert_then_delete_restores_rows "Dune" "Frank Herbert" 10 3006 [] [] seeded);
    reflexivity.
Defined.


